(** * Plasma-Rig: the stepper-axis firmware [EXP_CODE.ino]

    A shallow embedding of the Arduino sketch that drives a single linear
    stepper axis from a hard-stop reference, and the properties of its
    motion sequences.

    Modelling conventions.
    - The sketch's globals and the output pins form the record [State];
      every routine of the sketch is a function on [State].
    - [double] and [float] values are written as rationals ([Q]) and the
      sketch's [+], [-], [*] and [/] as the operations of [Q].  What is
      proved about a position is stated in the form in which the sketch
      computes it: a single assignment [start +/- i * MM_PER_PULSE], or
      [n] successive additions or subtractions of [MM_PER_PULSE].  The
      rounding of the machine's arithmetic is embedded apart, in module
      [IEEE], for the places where it decides a property.
    - [long] and [int] are [Z].  The sketch does no integer arithmetic that
      can wrap; a conversion from [double] to [long] is defined in C only
      when the value fits in 32 bits ([fits_long], [plan_fits_long]).
    - The contact line is an input of the world: [sensor k] is the level of
      [contactPin] once [k] step pulses have been issued.  Driving
      [PUL_PIN] high moves the actuator by one step, and the FALLING
      interrupt attached in [setup] runs when the line dropped across that
      step.
    - [delay] and [delayMicroseconds] only pass time and are identities.
    - [Serial] is the stream of characters written so far. *)

From Stdlib Require Import ZArith QArith Qround Bool List String Ascii Lia Lqa.
From Stdlib Require Import DecimalString SpecFloat.
Import ListNotations.

Open Scope string_scope.
Open Scope Z_scope.
Open Scope Q_scope.

(** ** Digital levels and pins *)

Inductive level : Set := LOW | HIGH.

Definition level_eqb (a b : level) : bool :=
  match a, b with
  | LOW, LOW | HIGH, HIGH => true
  | _, _ => false
  end.

Definition contactPin : Z := 2.
Definition contactLowPin : Z := 3.
Definition PUL_PIN : Z := 9.
Definition DIR_PIN : Z := 10.
Definition ENA_PIN : Z := 11.

(** ** Constants of the sketch *)

Definition stepDelay : Z := 100.
Definition MM_PER_PULSE : Q := 0.00005080.
Definition STEPS_PER_COMMAND : Z := 20.

(** ** The globals, the output latches and the serial stream *)

Record State : Type := mkState {
  currentPosition : Q;
  lastPositionUpdate : Z;
  contactDetected : bool;
  forceRest : bool;
  isCalibrated : bool;
  manualControlActive : bool;
  contactLow_out : level;
  PUL_out : level;
  DIR_out : level;
  ENA_out : level;
  pulses : nat;
  serial : string
}.

Definition set_currentPosition (v : Q) (s : State) : State :=
  mkState v (lastPositionUpdate s) (contactDetected s) (forceRest s)
    (isCalibrated s) (manualControlActive s) (contactLow_out s) (PUL_out s)
    (DIR_out s) (ENA_out s) (pulses s) (serial s).

Definition set_contactDetected (v : bool) (s : State) : State :=
  mkState (currentPosition s) (lastPositionUpdate s) v (forceRest s)
    (isCalibrated s) (manualControlActive s) (contactLow_out s) (PUL_out s)
    (DIR_out s) (ENA_out s) (pulses s) (serial s).

Definition set_isCalibrated (v : bool) (s : State) : State :=
  mkState (currentPosition s) (lastPositionUpdate s) (contactDetected s)
    (forceRest s) v (manualControlActive s) (contactLow_out s) (PUL_out s)
    (DIR_out s) (ENA_out s) (pulses s) (serial s).

Definition set_manualControlActive (v : bool) (s : State) : State :=
  mkState (currentPosition s) (lastPositionUpdate s) (contactDetected s)
    (forceRest s) (isCalibrated s) v (contactLow_out s) (PUL_out s)
    (DIR_out s) (ENA_out s) (pulses s) (serial s).

Definition set_contactLow_out (v : level) (s : State) : State :=
  mkState (currentPosition s) (lastPositionUpdate s) (contactDetected s)
    (forceRest s) (isCalibrated s) (manualControlActive s) v (PUL_out s)
    (DIR_out s) (ENA_out s) (pulses s) (serial s).

Definition set_PUL_out (v : level) (s : State) : State :=
  mkState (currentPosition s) (lastPositionUpdate s) (contactDetected s)
    (forceRest s) (isCalibrated s) (manualControlActive s) (contactLow_out s)
    v (DIR_out s) (ENA_out s) (pulses s) (serial s).

Definition set_DIR_out (v : level) (s : State) : State :=
  mkState (currentPosition s) (lastPositionUpdate s) (contactDetected s)
    (forceRest s) (isCalibrated s) (manualControlActive s) (contactLow_out s)
    (PUL_out s) v (ENA_out s) (pulses s) (serial s).

Definition set_ENA_out (v : level) (s : State) : State :=
  mkState (currentPosition s) (lastPositionUpdate s) (contactDetected s)
    (forceRest s) (isCalibrated s) (manualControlActive s) (contactLow_out s)
    (PUL_out s) (DIR_out s) v (pulses s) (serial s).

Definition set_pulses (v : nat) (s : State) : State :=
  mkState (currentPosition s) (lastPositionUpdate s) (contactDetected s)
    (forceRest s) (isCalibrated s) (manualControlActive s) (contactLow_out s)
    (PUL_out s) (DIR_out s) (ENA_out s) v (serial s).

Definition set_serial (v : string) (s : State) : State :=
  mkState (currentPosition s) (lastPositionUpdate s) (contactDetected s)
    (forceRest s) (isCalibrated s) (manualControlActive s) (contactLow_out s)
    (PUL_out s) (DIR_out s) (ENA_out s) (pulses s) v.

(** The globals as their initialisers leave them (lines 15-25); the latches
    read LOW until written. *)
Definition power_on : State :=
  mkState (-999) 0%Z false false false false LOW LOW LOW LOW 0%nat "".

(** ** Arithmetic of the Arduino core *)

Definition Qlt_bool (x y : Q) : bool := negb (Qle_bool y x).

(** The cast [(long) x]: truncation toward zero. *)
Definition to_long (x : Q) : Z := Z.quot (Qnum x) (Z.pos (Qden x)).

(** [round] of Arduino.h: [((x)>=0 ? (long)((x)+0.5) : (long)((x)-0.5))]. *)
Definition round (x : Q) : Z :=
  if Qle_bool 0 x then to_long (x + 0.5) else to_long (x - 0.5).

(** [abs] of Arduino.h: [((x)>0 ? (x) : -(x))]. *)
Definition abs (x : Z) : Z := if (x >? 0)%Z then x else (- x)%Z.

(** ** Serial *)

Definition CRLF : string :=
  String (ascii_of_nat 13) (String (ascii_of_nat 10) EmptyString).

Definition Serial_print (t : string) (s : State) : State :=
  set_serial (serial s ++ t) s.

Definition Serial_println (t : string) (s : State) : State :=
  Serial_print (t ++ CRLF) s.

(** Decimal text of an unsigned and of a signed integer ([Print::printNumber]
    and [Print::print(long)]). *)
Definition print_unsigned (n : Z) : string :=
  NilZero.string_of_uint (N.to_uint (Z.to_N n)).

Definition print_long (n : Z) : string :=
  if (n <? 0)%Z then "-" ++ print_unsigned (- n) else print_unsigned n.

(** The loop of [Print::printFloat] that halves the last digit:
    [rounding = 0.5; for (i = 0; i < digits; ++i) rounding /= 10.0]. *)
Fixpoint rounding_of (digits : nat) (rounding : Q) : Q :=
  match digits with
  | O => rounding
  | S d => rounding_of d (rounding / 10)
  end.

(** The loop of [Print::printFloat] that extracts the digits after the
    point, one at a time, by truncation. *)
Fixpoint print_fraction (digits : nat) (remainder : Q) : string :=
  match digits with
  | O => ""
  | S d =>
      let remainder := remainder * 10 in
      let toPrint := to_long remainder in
      print_unsigned toPrint
        ++ print_fraction d (remainder - inject_Z toPrint)
  end.

(** [Print::printFloat(number, digits)] of the Arduino core, on finite
    values. *)
Definition printFloat (number : Q) (digits : nat) : string :=
  if Qlt_bool 4294967040 number then "ovf"
  else if Qlt_bool number (-4294967040) then "ovf"
  else
    let sign := if Qlt_bool number 0 then "-" else "" in
    let number := if Qlt_bool number 0 then - number else number in
    let number := number + rounding_of digits 0.5 in
    let int_part := to_long number in
    let remainder := number - inject_Z int_part in
    sign ++ print_unsigned int_part
      ++ (if (0 <? digits)%nat then "." else "")
      ++ print_fraction digits remainder.

Definition Serial_println_float (x : Q) (digits : nat) : State -> State :=
  Serial_println (printFloat x digits).

Definition Serial_println_long (n : Z) : State -> State :=
  Serial_println (print_long n).

(** Sequencing of routines, in program order. *)
Definition then_ (f g : State -> State) : State -> State :=
  fun s => g (f s).

Declare Scope prog_scope.
Delimit Scope prog_scope with prog.
Notation "f ;; g" := (then_ f g)
  (at level 61, right associativity) : prog_scope.
Open Scope prog_scope.

Definition delay (ms : Z) (s : State) : State := s.
Definition delayMicroseconds (us : Z) (s : State) : State := s.

Section Firmware.

(** The contact line: [sensor k] is the level of [contactPin] after [k]
    step pulses.  The switch pulls the line LOW on contact. *)
Variable sensor : nat -> level.

(** ** Contact interrupt (lines 252-254) *)

Definition contactInterruptHandler (s : State) : State :=
  set_contactDetected true s.

Definition forceRestInterruptHandler (s : State) : State :=
  mkState (currentPosition s) (lastPositionUpdate s) (contactDetected s)
    true (isCalibrated s) (manualControlActive s) (contactLow_out s)
    (PUL_out s) (DIR_out s) (ENA_out s) (pulses s) (serial s).

(** What the driver and the switch do when the pulse line is driven HIGH:
    one more step is taken, and [attachInterrupt (contactPin, FALLING)]
    of [setup] fires when the contact line fell from HIGH to LOW across
    that step.  The sketch drives [PUL_PIN] in [stepMotor] only, which
    leaves it LOW, so every write of HIGH is a rising edge. *)
Definition falling (k : nat) : bool :=
  level_eqb (sensor k) HIGH && level_eqb (sensor (S k)) LOW.

Definition actuator_step (s : State) : State :=
  let k := pulses s in
  let s := set_pulses (S k) s in
  if falling k then contactInterruptHandler s else s.

Definition digitalWrite (pin : Z) (v : level) (s : State) : State :=
  if (pin =? contactLowPin)%Z then set_contactLow_out v s
  else if (pin =? PUL_PIN)%Z then
    match v with
    | HIGH => actuator_step (set_PUL_out v s)
    | LOW => set_PUL_out v s
    end
  else if (pin =? DIR_PIN)%Z then set_DIR_out v s
  else if (pin =? ENA_PIN)%Z then set_ENA_out v s
  else s.

Definition digitalRead (pin : Z) (s : State) : level :=
  if (pin =? contactPin)%Z then sensor (pulses s)
  else if (pin =? contactLowPin)%Z then contactLow_out s
  else if (pin =? PUL_PIN)%Z then PUL_out s
  else if (pin =? DIR_PIN)%Z then DIR_out s
  else if (pin =? ENA_PIN)%Z then ENA_out s
  else LOW.

(** ** Step pulse generator (lines 242-247) *)

Definition stepMotor : State -> State :=
  digitalWrite PUL_PIN HIGH ;;
  delayMicroseconds stepDelay ;;
  digitalWrite PUL_PIN LOW ;;
  delayMicroseconds stepDelay.

(** ** Setup (lines 31-41) *)

Definition setup : State -> State :=
  Serial_println "Arduino ready.".

(** ** Calibration routine (lines 86-106) *)

(** Lines 87-91. *)
Definition calibration_start : State -> State :=
  Serial_println "STATUS:CALIBRATION_START" ;;
  digitalWrite contactLowPin LOW ;;
  digitalWrite DIR_PIN LOW ;;
  digitalWrite ENA_PIN LOW ;;
  set_contactDetected false.

(** [while (!contactDetected) stepMotor();] with a bound on the number of
    iterations; [None] when the bound is reached with the flag still clear. *)
Fixpoint calibration_loop (fuel : nat) (s : State) : option State :=
  if negb (contactDetected s) then
    match fuel with
    | O => None
    | S fuel' => calibration_loop fuel' (stepMotor s)
    end
  else Some s.

(** Lines 101-105. *)
Definition calibration_finish : State -> State :=
  set_currentPosition 0 ;;
  set_isCalibrated true ;;
  digitalWrite ENA_PIN HIGH ;;
  Serial_println "POSITION:0" ;;
  Serial_println "STATUS:CALIBRATION_COMPLETE".

Definition runCalibration (fuel : nat) (s : State) : option State :=
  let s := calibration_start s in
  if level_eqb (digitalRead contactPin s) LOW then
    Some ((set_contactDetected true ;;
           Serial_println "Contact already detected!" ;;
           calibration_finish) s)
  else
    option_map calibration_finish (calibration_loop fuel s).

(** ** Target distance routine (lines 111-172) *)

(** The two-statement report [Serial.print("POSITION:");
    Serial.println(currentPosition, 6);]. *)
Definition print_position (s : State) : State :=
  (Serial_print "POSITION:" ;;
   Serial_println_float (currentPosition s) 6) s.

(** The [for] loop of lines 146-167 with [n] iterations left, [i] being the
    loop counter; the [break] of line 165 leaves the loop. *)
Fixpoint move_loop (n : nat) (i : Z) (stepsToMove : Z) (startPosition : Q)
    (s : State) : State :=
  match n with
  | O => s
  | S n' =>
      let s := stepMotor s in
      let s :=
        if (stepsToMove >? 0)%Z
        then set_currentPosition
               (startPosition + inject_Z i * MM_PER_PULSE) s
        else set_currentPosition
               (startPosition - inject_Z i * MM_PER_PULSE) s in
      let s := if (Z.rem i 100 =? 0)%Z then print_position s else s in
      if level_eqb (digitalRead contactPin s) LOW
         && level_eqb (digitalRead DIR_PIN s) LOW
      then (print_position ;;
            Serial_println "ERROR:Unexpected contact detected!") s
      else move_loop n' (i + 1)%Z stepsToMove startPosition s
  end.

(** The state at the safety check of one iteration (lines 147-158 done):
    the part of the loop body before line 161, named for the proofs. *)
Definition move_body (i : Z) (stepsToMove : Z) (startPosition : Q)
    (s : State) : State :=
  let s := stepMotor s in
  let s :=
    if (stepsToMove >? 0)%Z
    then set_currentPosition
           (startPosition + inject_Z i * MM_PER_PULSE) s
    else set_currentPosition
           (startPosition - inject_Z i * MM_PER_PULSE) s in
  if (Z.rem i 100 =? 0)%Z then print_position s else s.

(** The step plan of lines 121-123. *)
Definition targetSteps_of (mm : Q) : Z := round (mm / MM_PER_PULSE).

Definition snappedTarget_of (mm : Q) : Q :=
  inject_Z (targetSteps_of mm) * MM_PER_PULSE.

Definition stepsToMove_of (mm : Q) (position : Q) : Z :=
  round ((snappedTarget_of mm - position) / MM_PER_PULSE).

Definition moveToTarget (mm : Q) (s : State) : State :=
  if negb (isCalibrated s) then Serial_println "ERROR:NOT_CALIBRATED" s
  else
    let s := (Serial_print "Moving to target distance: " ;;
              Serial_println_float mm 6) s in
    let stepsToMove := stepsToMove_of mm (currentPosition s) in
    let s := (Serial_print "Steps to move: " ;;
              Serial_println_long stepsToMove) s in
    let s := if (stepsToMove >? 0)%Z
             then digitalWrite DIR_PIN HIGH s
             else digitalWrite DIR_PIN LOW s in
    let s := (digitalWrite ENA_PIN LOW ;; delay 10) s in
    let absStepsToMove := abs stepsToMove in
    let startPosition := currentPosition s in
    let s := move_loop (Z.to_nat absStepsToMove) 0%Z stepsToMove
               startPosition s in
    (print_position ;; Serial_println "STATUS:TARGET_COMPLETE") s.

(** The state in which the loop of a calibrated move starts (lines 117-137
    done), named for the proofs. *)
Definition move_prepare (mm : Q) (s : State) : State :=
  let d := stepsToMove_of mm (currentPosition s) in
  (digitalWrite ENA_PIN LOW ;; delay 10)
    (set_DIR_out (if (d >? 0)%Z then HIGH else LOW)
       ((Serial_print "Moving to target distance: " ;;
         Serial_println_float mm 6 ;;
         Serial_print "Steps to move: " ;;
         Serial_println_long d) s)).

(** ** Manual control routine (lines 177-227) *)

(** The [for] loop of lines 195-205 with [n] iterations left. *)
Fixpoint ccw_loop (n : nat) (s : State) : State :=
  match n with
  | O => s
  | S n' =>
      if level_eqb (digitalRead contactPin s) LOW then
        (set_contactDetected true ;;
         Serial_println "WARNING: Contact detected during movement!") s
      else
        let s := stepMotor s in
        let s := set_currentPosition (currentPosition s - MM_PER_PULSE) s in
        ccw_loop n' s
  end.

Definition manualStepCCW (s : State) : State :=
  if negb (isCalibrated s) then Serial_println "ERROR:NOT_CALIBRATED" s
  else
    let s := (digitalWrite DIR_PIN LOW ;;
              digitalWrite ENA_PIN LOW ;;
              set_contactDetected false) s in
    if level_eqb (digitalRead contactPin s) LOW then
      (set_contactDetected true ;;
       Serial_println "WARNING: Contact already detected!") s
    else ccw_loop (Z.to_nat STEPS_PER_COMMAND) s.

(** The [for] loop of lines 218-221 with [n] iterations left. *)
Fixpoint cw_loop (n : nat) (s : State) : State :=
  match n with
  | O => s
  | S n' =>
      let s := stepMotor s in
      let s := set_currentPosition (currentPosition s + MM_PER_PULSE) s in
      cw_loop n' s
  end.

Definition manualStepCW (s : State) : State :=
  if negb (isCalibrated s) then Serial_println "ERROR:NOT_CALIBRATED" s
  else
    let s := (digitalWrite DIR_PIN HIGH ;; digitalWrite ENA_PIN LOW) s in
    cw_loop (Z.to_nat STEPS_PER_COMMAND) s.

Definition manualStopMotor : State -> State := print_position.

(** ** REST routine (lines 232-237) *)

Definition stopMotor : State -> State :=
  Serial_println "Entering Rest State." ;;
  digitalWrite ENA_PIN HIGH ;;
  print_position.

(** ** Listener (lines 46-81) *)

(** A received line, after [trim].  [TARGET] carries the value that
    [toFloat] read after the prefix; [Other] is any other text. *)
Inductive Command : Type :=
  | CALIBRATE
  | TARGET (targetDist : Q)
  | MANUAL_READY
  | MANUAL_COMPLETE
  | MANUAL_CW
  | MANUAL_CCW
  | MANUAL_STOP
  | REST
  | Other (text : string).

Definition command_text (c : Command) : string :=
  match c with
  | CALIBRATE => "CALIBRATE"
  | TARGET _ => "TARGET:"
  | MANUAL_READY => "MANUAL:READY"
  | MANUAL_COMPLETE => "MANUAL:COMPLETE"
  | MANUAL_CW => "MANUAL:CW"
  | MANUAL_CCW => "MANUAL:CCW"
  | MANUAL_STOP => "MANUAL:STOP"
  | REST => "REST"
  | Other text => text
  end.

(** One pass of [loop] with a line available.  A jog command that arrives
    while [manualControlActive] is clear falls through the chain to the
    final [else]. *)
Definition loop (fuel : nat) (command : Command) (s : State)
    : option State :=
  match command with
  | CALIBRATE => runCalibration fuel s
  | TARGET targetDist => Some (moveToTarget targetDist s)
  | MANUAL_READY => Some (set_manualControlActive true s)
  | MANUAL_COMPLETE =>
      Some ((set_manualControlActive false ;;
             Serial_println "STATUS:MANUAL_COMPLETE") s)
  | MANUAL_CW =>
      if manualControlActive s then Some (manualStepCW s)
      else Some (Serial_println ("Unknown command: " ++ command_text command) s)
  | MANUAL_CCW =>
      if manualControlActive s then Some (manualStepCCW s)
      else Some (Serial_println ("Unknown command: " ++ command_text command) s)
  | MANUAL_STOP => Some (manualStopMotor s)
  | REST => Some (stopMotor s)
  | Other text => Some (Serial_println ("Unknown command: " ++ text) s)
  end.

(** The listener over a sequence of received lines. *)
Fixpoint run (fuel : nat) (commands : list Command) (s : State)
    : option State :=
  match commands with
  | [] => Some s
  | c :: rest =>
      match loop fuel c s with
      | Some s' => run fuel rest s'
      | None => None
      end
  end.

End Firmware.

(** The state in which the listener starts: the globals after [setup]. *)
Definition boot : State := setup power_on.

(** A contact line that is never pulled low, and one that is low exactly
    at the hard stop reached after [k] pulses. *)
Definition never_contact : nat -> level := fun _ => HIGH.
Definition contact_from (k : nat) : nat -> level :=
  fun n => if (k <=? n)%nat then LOW else HIGH.

(** A contact line held low throughout. *)
Definition always_low : nat -> level := fun _ => LOW.

(** A contact line that is low at the hard stop only, reached after [k]
    pulses of a homing run, and high once the axis has moved off it. *)
Definition contact_only_at (k : nat) : nat -> level :=
  fun n => if (n =? k)%nat then LOW else HIGH.


(** The listener has not completed a calibration yet: the flag is clear
    and the position still holds the initialiser of line 15. *)
Definition uncalibrated (s : State) : Prop :=
  isCalibrated s = false /\ currentPosition s = -999.

(** The commands that open the jog gate or move the axis without it. *)
Definition opens_gate_or_moves (c : Command) : bool :=
  match c with
  | CALIBRATE | TARGET _ | MANUAL_READY => true
  | _ => false
  end.

(** The globals that no routine of the sketch assigns. *)
Definition unused_globals (s : State) : bool * Z :=
  (forceRest s, lastPositionUpdate s).

(** One execution of [currentPosition -= MM_PER_PULSE] (line 204) and of
    [currentPosition += MM_PER_PULSE] (line 220). *)
Definition step_down (position : Q) : Q := position - MM_PER_PULSE.
Definition step_up (position : Q) : Q := position + MM_PER_PULSE.

(** The range of [long] on Arduino boards, 32 bits. *)
Definition LONG_MAX : Z := 2147483647.
Definition LONG_MIN : Z := -2147483648.

Definition fits_long (z : Z) : Prop := (LONG_MIN <= z <= LONG_MAX)%Z.

(** Both conversions to [long] of the step plan (lines 121 and 123) are
    defined. *)
Definition plan_fits_long (mm position : Q) : Prop :=
  fits_long (targetSteps_of mm) /\ fits_long (stepsToMove_of mm position).

(** ** The machine's arithmetic

    The position arithmetic of the CCW jog as the boards compute it: IEEE
    754 binary floating point with round to nearest even, [double] being
    32 bits wide on AVR boards and 64 bits wide on the others. *)
Module IEEE.

Record format : Set := mkFormat { prec : Z; emax : Z }.

Definition binary32 : format := mkFormat 24 128.
Definition binary64 : format := mkFormat 53 1024.

(** An integer as a floating-point number. *)
Definition of_Z (f : format) (z : Z) : spec_float :=
  binary_normalize (prec f) (emax f) z 0 false.

(** The decimal literal [num / den], both integers exact in the format:
    the correctly rounded quotient is the number nearest to the literal. *)
Definition literal (f : format) (num den : Z) : spec_float :=
  SFdiv (prec f) (emax f) (of_Z f num) (of_Z f den).

Definition sub (f : format) : spec_float -> spec_float -> spec_float :=
  SFsub (prec f) (emax f).

Definition mul (f : format) : spec_float -> spec_float -> spec_float :=
  SFmul (prec f) (emax f).

(** [const double MM_PER_PULSE = 0.00005080] (line 14). *)
Definition MM_PER_PULSE (f : format) : spec_float :=
  literal f 5080 100000000.

(** The loop of lines 195-205 with [n] iterations left, on the pulse count
    and the position alone: the contact line is read before each pulse,
    and each pulse is followed by [currentPosition -= MM_PER_PULSE]. *)
Fixpoint ccw_loop (f : format) (sensor : nat -> level) (n : nat)
    (pulses : nat) (position : spec_float) : nat * spec_float :=
  match n with
  | O => (pulses, position)
  | S n' =>
      match sensor pulses with
      | LOW => (pulses, position)
      | HIGH => ccw_loop f sensor n' (S pulses)
                  (sub f position (MM_PER_PULSE f))
      end
  end.

(** The rational a finite floating-point number stands for. *)
Definition value (x : spec_float) : Q :=
  match x with
  | S754_finite sign m e =>
      let v := inject_Z (Z.pos m) * 2 ^ e in
      if sign then - v else v
  | _ => 0
  end.

End IEEE.

(** * Properties *)

(** ** Rounding onto the step grid *)

Lemma to_long_nonneg (x : Q) : 0 <= x -> to_long x = Qfloor x.
Proof.
  destruct x as [n d]. unfold Qle, to_long, Qfloor. cbn. intros H.
  apply Z.quot_div_nonneg; lia.
Qed.

Lemma to_long_nonpos (x : Q) : x <= 0 -> to_long x = Qceiling x.
Proof.
  destruct x as [n d]. unfold Qle, to_long, Qceiling, Qfloor. cbn. intros H.
  rewrite <- (Z.opp_involutive n) at 1. rewrite Z.quot_opp_l by lia.
  f_equal. apply Z.quot_div_nonneg; lia.
Qed.

Lemma Qfloor_unique (x : Q) (n : Z) :
  inject_Z n <= x -> x < inject_Z n + 1 -> Qfloor x = n.
Proof.
  intros Hle Hlt.
  pose proof (Qfloor_le x) as H1. pose proof (Qlt_floor x) as H2.
  rewrite inject_Z_plus in H2. change (inject_Z 1) with 1 in H2.
  assert (n < Qfloor x + 1)%Z.
  { rewrite Zlt_Qlt, inject_Z_plus. change (inject_Z 1) with 1. lra. }
  assert (Qfloor x < n + 1)%Z.
  { rewrite Zlt_Qlt, inject_Z_plus. change (inject_Z 1) with 1. lra. }
  lia.
Qed.

Lemma Qceiling_unique (x : Q) (n : Z) :
  inject_Z n - 1 < x -> x <= inject_Z n -> Qceiling x = n.
Proof.
  intros Hlt Hle. unfold Qceiling.
  rewrite (Qfloor_unique (- x) (- n)); [lia | |]; rewrite inject_Z_opp; lra.
Qed.

Lemma round_bounds (x : Q) :
  inject_Z (round x) - 0.5 <= x <= inject_Z (round x) + 0.5.
Proof.
  unfold round. destruct (Qle_bool 0 x) eqn:Hx.
  - apply Qle_bool_iff in Hx. rewrite to_long_nonneg by lra.
    pose proof (Qfloor_le (x + 0.5)). pose proof (Qlt_floor (x + 0.5)) as H2.
    rewrite inject_Z_plus in H2. change (inject_Z 1) with 1 in H2. lra.
  - assert (x < 0).
    { apply Qnot_le_lt. intros H. apply Qle_bool_iff in H. congruence. }
    rewrite to_long_nonpos by lra.
    pose proof (Qle_ceiling (x - 0.5)).
    pose proof (Qceiling_lt (x - 0.5)) as H2.
    replace (Qceiling (x - 0.5) - 1)%Z with (Qceiling (x - 0.5) + (-1))%Z
      in H2 by lia.
    rewrite inject_Z_plus in H2. change (inject_Z (-1)) with (-1) in H2. lra.
Qed.

Lemma round_eq_1 (x : Q) : 0.5 <= x -> x < 1.5 -> round x = 1%Z.
Proof.
  intros H1 H2. unfold round.
  assert (Hx : Qle_bool 0 x = true) by (apply Qle_bool_iff; lra).
  rewrite Hx, to_long_nonneg by lra.
  apply Qfloor_unique; change (inject_Z 1) with 1; lra.
Qed.

Lemma round_eq_m1 (x : Q) : -1.5 < x -> x <= -0.5 -> round x = (-1)%Z.
Proof.
  intros H1 H2. unfold round.
  assert (Hx : Qle_bool 0 x = false).
  { destruct (Qle_bool 0 x) eqn:E; [|reflexivity].
    apply Qle_bool_iff in E. lra. }
  rewrite Hx, to_long_nonpos by lra.
  apply Qceiling_unique; change (inject_Z (-1)) with (-1); lra.
Qed.

(** The bound is strict on the far side of zero. *)
Lemma round_pos (x : Q) :
  (0 < round x)%Z ->
  inject_Z (round x) - 0.5 <= x /\ x < inject_Z (round x) + 0.5.
Proof.
  unfold round. destruct (Qle_bool 0 x) eqn:Hx.
  - apply Qle_bool_iff in Hx. rewrite to_long_nonneg by lra. intros _.
    pose proof (Qfloor_le (x + 0.5)). pose proof (Qlt_floor (x + 0.5)) as H2.
    rewrite inject_Z_plus in H2. change (inject_Z 1) with 1 in H2. lra.
  - assert (x < 0).
    { apply Qnot_le_lt. intros H. apply Qle_bool_iff in H. congruence. }
    rewrite to_long_nonpos by lra. intros Hpos.
    pose proof (Qle_ceiling (x - 0.5)).
    pose proof (Qceiling_lt (x - 0.5)) as H2.
    assert (Hc : (Qceiling (x - 0.5) <= 0)%Z).
    { rewrite <- (Qceiling_Z 0). apply Qceiling_resp_le.
      change (inject_Z 0) with 0. lra. }
    lia.
Qed.

Lemma round_neg (x : Q) :
  (round x < 0)%Z ->
  inject_Z (round x) - 0.5 < x /\ x <= inject_Z (round x) + 0.5.
Proof.
  unfold round. destruct (Qle_bool 0 x) eqn:Hx.
  - apply Qle_bool_iff in Hx. rewrite to_long_nonneg by lra. intros Hneg.
    assert (Hc : (0 <= Qfloor (x + 0.5))%Z).
    { rewrite <- (Qfloor_Z 0). apply Qfloor_resp_le.
      change (inject_Z 0) with 0. lra. }
    lia.
  - assert (x < 0).
    { apply Qnot_le_lt. intros H. apply Qle_bool_iff in H. congruence. }
    rewrite to_long_nonpos by lra. intros _.
    pose proof (Qle_ceiling (x - 0.5)).
    pose proof (Qceiling_lt (x - 0.5)) as H2.
    replace (Qceiling (x - 0.5) - 1)%Z with (Qceiling (x - 0.5) + (-1))%Z
      in H2 by lia.
    rewrite inject_Z_plus in H2. change (inject_Z (-1)) with (-1) in H2. lra.
Qed.
(** The only integer within half a step of [x] is [round x]. *)
Lemma round_unique (x : Q) (z : Z) :
  inject_Z z - 0.5 < x -> x < inject_Z z + 0.5 -> round x = z.
Proof.
  intros Hlo Hhi. destruct (round_bounds x) as [Hr1 Hr2].
  assert (round x < z + 1)%Z.
  { rewrite Zlt_Qlt, inject_Z_plus. change (inject_Z 1) with 1. lra. }
  assert (z < round x + 1)%Z.
  { rewrite Zlt_Qlt, inject_Z_plus. change (inject_Z 1) with 1. lra. }
  lia.
Qed.

(** ** The step plan *)

Lemma per_pulse_div (x : Q) : x / MM_PER_PULSE == x * (100000000 # 5080).
Proof. reflexivity. Qed.

(** Planning the same target again from the position a completed move
    of [d] steps leaves behind, one step short of the snapped target: the
    plan is one more step in the same direction. *)
Lemma stepsToMove_again_away (mm position : Q) :
  let d := stepsToMove_of mm position in
  (0 < d)%Z ->
  stepsToMove_of mm (position + inject_Z (d - 1) * MM_PER_PULSE) = 1%Z.
Proof.
  intros d Hd. subst d. unfold stepsToMove_of in *.
  set (y := (snappedTarget_of mm - position) / MM_PER_PULSE) in *.
  destruct (round_pos y Hd) as [Hlo Hhi].
  replace (round y - 1)%Z with (round y + (-1))%Z by lia.
  set (r := round y) in *.
  assert (Hy : (snappedTarget_of mm
                - (position + inject_Z (r + -1) * MM_PER_PULSE))
               / MM_PER_PULSE == y - inject_Z r + 1).
  { subst y. rewrite inject_Z_plus, !per_pulse_div.
    change (inject_Z (-1)) with (-1). unfold MM_PER_PULSE. ring. }
  apply round_eq_1; rewrite Hy; lra.
Qed.

Lemma stepsToMove_again_toward (mm position : Q) :
  let d := stepsToMove_of mm position in
  (d < 0)%Z ->
  stepsToMove_of mm (position - inject_Z (- d - 1) * MM_PER_PULSE) = (-1)%Z.
Proof.
  intros d Hd. subst d. unfold stepsToMove_of in *.
  set (y := (snappedTarget_of mm - position) / MM_PER_PULSE) in *.
  destruct (round_neg y Hd) as [Hlo Hhi].
  replace (- round y - 1)%Z with (- round y + (-1))%Z by lia.
  set (r := round y) in *.
  assert (Hy : (snappedTarget_of mm
                - (position - inject_Z (- r + -1) * MM_PER_PULSE))
               / MM_PER_PULSE == y - inject_Z r - 1).
  { subst y. rewrite inject_Z_plus, inject_Z_opp, !per_pulse_div.
    change (inject_Z (-1)) with (-1). unfold MM_PER_PULSE. ring. }
  apply round_eq_m1; rewrite Hy; lra.
Qed.

Section Properties.

Variable sensor : nat -> level.

(** ** The primitives, field by field *)

Lemma stepMotor_eq (s : State) :
  stepMotor sensor s =
  mkState (currentPosition s) (lastPositionUpdate s)
    (falling sensor (pulses s) || contactDetected s) (forceRest s)
    (isCalibrated s) (manualControlActive s) (contactLow_out s) LOW
    (DIR_out s) (ENA_out s) (S (pulses s)) (serial s).
Proof.
  unfold stepMotor, then_, delayMicroseconds, digitalWrite, actuator_step.
  cbn. destruct (falling sensor (pulses s)); reflexivity.
Qed.

Lemma digitalRead_contactPin (s : State) :
  digitalRead sensor contactPin s = sensor (pulses s).
Proof. reflexivity. Qed.

Lemma digitalRead_DIR_PIN (s : State) :
  digitalRead sensor DIR_PIN s = DIR_out s.
Proof. reflexivity. Qed.

Lemma digitalWrite_DIR_PIN (v : level) (s : State) :
  digitalWrite sensor DIR_PIN v s = set_DIR_out v s.
Proof. reflexivity. Qed.

Lemma digitalWrite_ENA_PIN (v : level) (s : State) :
  digitalWrite sensor ENA_PIN v s = set_ENA_out v s.
Proof. reflexivity. Qed.

Lemma digitalWrite_contactLowPin (v : level) (s : State) :
  digitalWrite sensor contactLowPin v s = set_contactLow_out v s.
Proof. reflexivity. Qed.

Lemma level_eqb_LOW (l : level) : level_eqb l LOW = true <-> l = LOW.
Proof. destruct l; cbn; split; congruence. Qed.

Lemma append_assoc (a b c : string) : (a ++ b) ++ c = a ++ (b ++ c).
Proof. induction a as [|x a IH]; cbn; [reflexivity | now rewrite IH]. Qed.

(** ** The calibration loop *)

(** The loop ends as soon as the line has been pulled low: [k] iterations
    are enough when contact is made within [k] pulses. *)
Lemma calibration_loop_terminates (k : nat) : forall s,
  contactDetected s = false ->
  sensor (pulses s) = HIGH ->
  sensor (pulses s + k) = LOW ->
  exists s', calibration_loop sensor k s = Some s'
             /\ (pulses s < pulses s' <= pulses s + k)%nat
             /\ sensor (pulses s') = LOW.
Proof.
  induction k as [|k IH]; intros s Hflag Hhigh Hlow.
  - rewrite Nat.add_0_r in Hlow. congruence.
  - cbn [calibration_loop]. rewrite Hflag. cbn [negb].
    destruct (sensor (S (pulses s))) eqn:Hnext.
    + exists (stepMotor sensor s).
      assert (Hdone : contactDetected (stepMotor sensor s) = true).
      { rewrite stepMotor_eq. cbn. unfold falling.
        now rewrite Hhigh, Hnext. }
      split.
      * destruct k; cbn [calibration_loop]; now rewrite Hdone.
      * rewrite stepMotor_eq. cbn. split; [lia | exact Hnext].
    + destruct (IH (stepMotor sensor s)) as (s' & Hrun & Hp & Hs').
      * rewrite stepMotor_eq. cbn. unfold falling.
        rewrite Hhigh, Hnext, Hflag. reflexivity.
      * rewrite stepMotor_eq. cbn. exact Hnext.
      * rewrite stepMotor_eq. cbn [pulses].
        rewrite <- Hlow. f_equal. lia.
      * exists s'. rewrite stepMotor_eq in Hp. cbn in Hp.
        repeat split; try assumption; lia.
Qed.

(** Without contact the loop never ends, whatever the bound. *)
Lemma calibration_loop_diverges (fuel : nat) : forall s,
  contactDetected s = false ->
  (forall k, sensor k = HIGH) ->
  calibration_loop sensor fuel s = None.
Proof.
  induction fuel as [|fuel IH]; intros s Hflag Hhigh; cbn [calibration_loop];
    rewrite Hflag; cbn [negb]; [reflexivity|].
  apply IH; [|assumption].
  rewrite stepMotor_eq. cbn. unfold falling.
  rewrite !Hhigh, Hflag. reflexivity.
Qed.

Lemma calibration_start_fields (s : State) :
  contactDetected (calibration_start sensor s) = false
  /\ pulses (calibration_start sensor s) = pulses s
  /\ DIR_out (calibration_start sensor s) = LOW.
Proof. repeat split. Qed.

Lemma calibration_finish_fields (s : State) :
  currentPosition (calibration_finish sensor s) = 0
  /\ isCalibrated (calibration_finish sensor s) = true
  /\ ENA_out (calibration_finish sensor s) = HIGH
  /\ pulses (calibration_finish sensor s) = pulses s.
Proof. repeat split. Qed.

(** ** The listener before calibration *)

Lemma loop_keeps_uncalibrated (fuel : nat) (c : Command) (s : State) :
  c <> CALIBRATE ->
  uncalibrated s ->
  exists s', loop sensor fuel c s = Some s' /\ uncalibrated s'.
Proof.
  intros Hc [Hcal Hpos].
  destruct c; try congruence; cbn [loop];
    unfold moveToTarget, manualStepCW, manualStepCCW;
    try destruct (manualControlActive s); rewrite ?Hcal; cbn [negb];
    eexists; (split; [reflexivity|]); split; assumption.
Qed.

Lemma run_keeps_uncalibrated (fuel : nat) (cs : list Command) :
  forall s,
  ~ In CALIBRATE cs ->
  uncalibrated s ->
  exists s', run sensor fuel cs s = Some s' /\ uncalibrated s'.
Proof.
  induction cs as [|c cs IH]; intros s Hnot Hs; cbn [run].
  - now exists s.
  - destruct (loop_keeps_uncalibrated fuel c s) as (s1 & -> & Hs1);
      [intros ->; apply Hnot; now left | assumption |].
    apply IH; [|assumption]. intros Hin. apply Hnot. now right.
Qed.

Lemma manualStopMotor_serial (s : State) :
  serial (manualStopMotor s)
  = serial s ++ "POSITION:" ++ printFloat (currentPosition s) 6 ++ CRLF.
Proof.
  unfold manualStopMotor, print_position, Serial_println_float,
    Serial_println, Serial_print, then_.
  cbn [serial set_serial currentPosition]. now rewrite append_assoc.
Qed.

Lemma stopMotor_serial (s : State) :
  serial (stopMotor sensor s)
  = serial s ++ "Entering Rest State." ++ CRLF
      ++ "POSITION:" ++ printFloat (currentPosition s) 6 ++ CRLF.
Proof.
  unfold stopMotor, print_position, Serial_println_float, Serial_println,
    Serial_print, then_.
  rewrite digitalWrite_ENA_PIN.
  cbn [serial set_serial set_ENA_out currentPosition].
  now rewrite !append_assoc.
Qed.

Lemma printFloat_sentinel : printFloat (-999) 6 = "-999.000000".
Proof. vm_compute. reflexivity. Qed.

(** ** The jog loops *)

(** Contact first read before pulse number [N] of a batch of [n]: the loop
    breaks there, [N] pulses issued and [N] decrements made. *)
Lemma ccw_loop_contact (N : nat) : forall (n : nat) (s : State),
  (N < n)%nat ->
  (forall j, (j < N)%nat -> sensor (pulses s + j) = HIGH) ->
  sensor (pulses s + N) = LOW ->
  let s' := ccw_loop sensor n s in
  pulses s' = (pulses s + N)%nat
  /\ currentPosition s' = Nat.iter N step_down (currentPosition s)
  /\ serial s'
     = serial s ++ "WARNING: Contact detected during movement!" ++ CRLF
  /\ contactDetected s' = true
  /\ isCalibrated s' = isCalibrated s
  /\ DIR_out s' = DIR_out s.
Proof.
  induction N as [|N IH]; intros n s Hn Hhigh Hlow;
    (destruct n as [|n]; [lia|]); cbn zeta; cbn [ccw_loop];
    rewrite digitalRead_contactPin.
  - rewrite Nat.add_0_r in Hlow. rewrite Hlow. cbn [level_eqb].
    repeat split; cbn; lia.
  - rewrite <- (Nat.add_0_r (pulses s)), (Hhigh 0%nat) by lia.
    cbn [level_eqb]. rewrite Nat.add_0_r.
    set (s1 := set_currentPosition _ _).
    assert (Hs1 : pulses s1 = S (pulses s)
                  /\ currentPosition s1 = step_down (currentPosition s)
                  /\ serial s1 = serial s
                  /\ isCalibrated s1 = isCalibrated s
                  /\ DIR_out s1 = DIR_out s)
      by (subst s1; rewrite stepMotor_eq; repeat split).
    destruct Hs1 as (Hp1 & Hc1 & Hser1 & Hcal1 & Hdir1).
    destruct (IH n s1) as (Hp & Hpos & Hser & Hflag & Hcal & Hdir).
    + lia.
    + intros j Hj. rewrite Hp1.
      replace (S (pulses s) + j)%nat with (pulses s + S j)%nat by lia.
      apply Hhigh. lia.
    + rewrite Hp1.
      now replace (S (pulses s) + N)%nat with (pulses s + S N)%nat by lia.
    + repeat split.
      * rewrite Hp, Hp1. lia.
      * rewrite Hpos, Hc1, Nat.iter_succ_r. reflexivity.
      * rewrite Hser, Hser1. reflexivity.
      * exact Hflag.
      * rewrite Hcal, Hcal1. reflexivity.
      * rewrite Hdir, Hdir1. reflexivity.
Qed.

(** No contact read before any pulse of the batch: all [n] are issued. *)
Lemma ccw_loop_full (n : nat) : forall (s : State),
  (forall j, (j < n)%nat -> sensor (pulses s + j) = HIGH) ->
  let s' := ccw_loop sensor n s in
  pulses s' = (pulses s + n)%nat
  /\ currentPosition s' = Nat.iter n step_down (currentPosition s)
  /\ serial s' = serial s.
Proof.
  induction n as [|n IH]; intros s Hhigh; cbn zeta; cbn [ccw_loop].
  - repeat split; cbn; lia.
  - rewrite digitalRead_contactPin.
    rewrite <- (Nat.add_0_r (pulses s)), (Hhigh 0%nat) by lia.
    cbn [level_eqb]. rewrite Nat.add_0_r.
    set (s1 := set_currentPosition _ _).
    assert (Hs1 : pulses s1 = S (pulses s)
                  /\ currentPosition s1 = step_down (currentPosition s)
                  /\ serial s1 = serial s)
      by (subst s1; rewrite stepMotor_eq; repeat split).
    destruct Hs1 as (Hp1 & Hc1 & Hser1).
    destruct (IH s1) as (Hp & Hpos & Hser).
    + intros j Hj. rewrite Hp1.
      replace (S (pulses s) + j)%nat with (pulses s + S j)%nat by lia.
      apply Hhigh. lia.
    + repeat split.
      * rewrite Hp, Hp1. lia.
      * rewrite Hpos, Hc1, Nat.iter_succ_r. reflexivity.
      * rewrite Hser, Hser1. reflexivity.
Qed.

(** ** The loop of [moveToTarget] *)

Lemma move_loop_S (n : nat) (i d : Z) (sp : Q) (s : State) :
  move_loop sensor (S n) i d sp s =
  let s1 := move_body sensor i d sp s in
  if level_eqb (sensor (pulses s1)) LOW && level_eqb (DIR_out s1) LOW
  then (print_position ;;
        Serial_println "ERROR:Unexpected contact detected!") s1
  else move_loop sensor n (i + 1)%Z d sp s1.
Proof. reflexivity. Qed.

Lemma move_body_fields (i d : Z) (sp : Q) (s : State) :
  let s1 := move_body sensor i d sp s in
  pulses s1 = S (pulses s)
  /\ DIR_out s1 = DIR_out s
  /\ ENA_out s1 = ENA_out s
  /\ isCalibrated s1 = isCalibrated s
  /\ contactDetected s1 = (falling sensor (pulses s) || contactDetected s)
  /\ currentPosition s1
     = (if (d >? 0)%Z then sp + inject_Z i * MM_PER_PULSE
        else sp - inject_Z i * MM_PER_PULSE).
Proof.
  cbv zeta. unfold move_body. rewrite stepMotor_eq.
  destruct (d >? 0)%Z, (Z.rem i 100 =? 0)%Z; repeat split.
Qed.

(** The lines, the calibration flag and the pulse count along the loop:
    at most [n] pulses, at least one when [n] is not zero, and the latched
    flag is never cleared. *)
Lemma move_loop_frame (n : nat) (d : Z) (sp : Q) : forall (i : Z) (s : State),
  let s' := move_loop sensor n i d sp s in
  DIR_out s' = DIR_out s
  /\ ENA_out s' = ENA_out s
  /\ isCalibrated s' = isCalibrated s
  /\ (pulses s + Nat.min 1 n <= pulses s' <= pulses s + n)%nat
  /\ (contactDetected s = true -> contactDetected s' = true).
Proof.
  induction n as [|n IH]; intros i s; cbv zeta.
  - cbn [move_loop]. repeat split; cbn; try lia; auto.
  - rewrite move_loop_S. cbv zeta.
    destruct (move_body_fields i d sp s) as (Hp & Hdir & Hena & Hcal & Hfl & _).
    destruct (level_eqb _ LOW && level_eqb _ LOW).
    + cbn -[move_body Nat.min]. rewrite Hp, Hdir, Hena, Hcal, Hfl.
      repeat split; try lia. intros ->. apply orb_true_r.
    + destruct (IH (i + 1)%Z (move_body sensor i d sp s))
        as (Hdir' & Hena' & Hcal' & Hp' & Hfl').
      rewrite Hdir', Hena', Hcal'. rewrite Hp in Hp'.
      repeat split; try assumption; try lia.
      intros Hs. apply Hfl'. rewrite Hfl, Hs. apply orb_true_r.
Qed.

(** The loop stops short of its count only at a pulse boundary where the
    live contact line reads LOW with the direction line LOW. *)
Lemma move_loop_short (n : nat) (d : Z) (sp : Q) : forall (i : Z) (s : State),
  let s' := move_loop sensor n i d sp s in
  (pulses s' < pulses s + n)%nat ->
  sensor (pulses s') = LOW /\ DIR_out s = LOW.
Proof.
  induction n as [|n IH]; intros i s; cbv zeta.
  - cbn [move_loop]. lia.
  - rewrite move_loop_S. cbv zeta.
    destruct (move_body_fields i d sp s) as (Hp & Hdir & _).
    destruct (level_eqb (sensor _) LOW) eqn:Hc;
      [destruct (level_eqb (DIR_out _) LOW) eqn:Hd|]; cbn [andb].
    + intros _. apply level_eqb_LOW in Hc, Hd. rewrite Hdir in Hd.
      split; [exact Hc | exact Hd].
    + intros Hlt.
      destruct (IH (i + 1)%Z (move_body sensor i d sp s)) as [H1 H2];
        [rewrite Hp; lia | now rewrite <- Hdir].
    + intros Hlt.
      destruct (IH (i + 1)%Z (move_body sensor i d sp s)) as [H1 H2];
        [rewrite Hp; lia | now rewrite <- Hdir].
Qed.

(** With the contact line high at every boundary after a pulse, or with
    the direction line HIGH, the loop runs its whole count. *)
Lemma move_loop_full (n : nat) (d : Z) (sp : Q) : forall (i : Z) (s : State),
  (DIR_out s = HIGH
   \/ forall j, (1 <= j <= n)%nat -> sensor (pulses s + j) = HIGH) ->
  pulses (move_loop sensor n i d sp s) = (pulses s + n)%nat.
Proof.
  intros i s Hfree.
  destruct (move_loop_frame n d sp i s) as (_ & _ & _ & Hp & _).
  destruct (Nat.eq_dec (pulses (move_loop sensor n i d sp s)) (pulses s + n))
    as [|Hne]; [assumption|].
  destruct (move_loop_short n d sp i s) as [Hlow Hdir]; [lia|].
  destruct Hfree as [Hhigh | Hhigh]; [congruence|].
  specialize (Hhigh (pulses (move_loop sensor n i d sp s) - pulses s)%nat).
  replace (pulses s + (pulses (move_loop sensor n i d sp s) - pulses s))%nat
    with (pulses (move_loop sensor n i d sp s)) in Hhigh by lia.
  rewrite Hhigh in Hlow; [discriminate | lia].
Qed.

(** The position the loop leaves: the start position moved by the counter
    of the last iteration entered, which is one less than the number of
    pulses issued. *)
Lemma move_loop_position (n : nat) (d : Z) (sp : Q) :
  forall (i : Z) (s : State),
  (0 < n)%nat ->
  let s' := move_loop sensor n i d sp s in
  let last := (i + Z.of_nat (pulses s' - pulses s) - 1)%Z in
  currentPosition s'
  = (if (d >? 0)%Z then sp + inject_Z last * MM_PER_PULSE
     else sp - inject_Z last * MM_PER_PULSE).
Proof.
  induction n as [|n IH]; intros i s Hn; [lia|]. cbv zeta.
  rewrite move_loop_S. cbv zeta.
  destruct (move_body_fields i d sp s) as (Hp & _ & _ & _ & _ & Hpos).
  destruct (level_eqb _ LOW && level_eqb _ LOW).
  - cbn -[move_body Z.of_nat]. rewrite Hp, Hpos.
    replace (i + Z.of_nat (S (pulses s) - pulses s) - 1)%Z with i by lia.
    reflexivity.
  - destruct n as [|n].
    + cbn [move_loop]. rewrite Hp, Hpos.
      replace (i + Z.of_nat (S (pulses s) - pulses s) - 1)%Z with i by lia.
      reflexivity.
    + rewrite (IH (i + 1)%Z (move_body sensor i d sp s)) by lia.
      destruct (move_loop_frame (S n) d sp (i + 1)%Z
                  (move_body sensor i d sp s)) as (_ & _ & _ & Hp' & _).
      rewrite Hp in Hp' |- *.
      set (p' := pulses (move_loop _ _ _ _ _ _)) in *.
      replace (i + 1 + Z.of_nat (p' - S (pulses s)) - 1)%Z
        with (i + Z.of_nat (p' - pulses s) - 1)%Z by lia.
      reflexivity.
Qed.

(** ** [moveToTarget] on a calibrated axis *)

Lemma move_finish_fields (s : State) :
  let s' := (print_position ;; Serial_println "STATUS:TARGET_COMPLETE") s in
  pulses s' = pulses s
  /\ currentPosition s' = currentPosition s
  /\ DIR_out s' = DIR_out s
  /\ ENA_out s' = ENA_out s
  /\ isCalibrated s' = isCalibrated s
  /\ contactDetected s' = contactDetected s.
Proof. repeat split. Qed.

(** The routine past its guard: the plan, the direction and enable lines,
    then the loop from the state so prepared. *)
Lemma moveToTarget_eq (mm : Q) (s : State) :
  isCalibrated s = true ->
  let d := stepsToMove_of mm (currentPosition s) in
  moveToTarget sensor mm s
  = (print_position ;; Serial_println "STATUS:TARGET_COMPLETE")
      (move_loop sensor (Z.to_nat (abs d)) 0%Z d (currentPosition s)
         (move_prepare sensor mm s)).
Proof.
  intros Hcal d. unfold moveToTarget, move_prepare. rewrite Hcal.
  cbn [negb]. subst d.
  cbn [then_ currentPosition set_serial Serial_print
    Serial_println Serial_println_float Serial_println_long].
  destruct (stepsToMove_of mm (currentPosition s) >? 0)%Z; reflexivity.
Qed.

Lemma move_prepare_fields (mm : Q) (s : State) :
  let d := stepsToMove_of mm (currentPosition s) in
  let s0 := move_prepare sensor mm s in
  pulses s0 = pulses s
  /\ currentPosition s0 = currentPosition s
  /\ DIR_out s0 = (if (d >? 0)%Z then HIGH else LOW)
  /\ ENA_out s0 = LOW
  /\ isCalibrated s0 = isCalibrated s
  /\ contactDetected s0 = contactDetected s.
Proof. repeat split. Qed.

Lemma abs_to_nat_pos (d : Z) : d <> 0%Z -> (0 < Z.to_nat (abs d))%nat.
Proof. unfold abs. destruct (Z.gtb_spec d 0); lia. Qed.

Lemma abs_of_nat (d : Z) : Z.of_nat (Z.to_nat (abs d)) = Z.abs d.
Proof. unfold abs. destruct (Z.gtb_spec d 0); lia. Qed.

(** What a target move does to the pulse count, the lines and the
    position. *)
Lemma moveToTarget_summary (mm : Q) (s : State) :
  isCalibrated s = true ->
  let d := stepsToMove_of mm (currentPosition s) in
  let n := Z.to_nat (abs d) in
  let s' := moveToTarget sensor mm s in
  let last := (Z.of_nat (pulses s' - pulses s) - 1)%Z in
  DIR_out s' = (if (d >? 0)%Z then HIGH else LOW)
  /\ isCalibrated s' = true
  /\ (pulses s + Nat.min 1 n <= pulses s' <= pulses s + n)%nat
  /\ (d <> 0%Z ->
      currentPosition s'
      = (if (d >? 0)%Z
         then currentPosition s + inject_Z last * MM_PER_PULSE
         else currentPosition s - inject_Z last * MM_PER_PULSE))
  /\ (d = 0%Z -> currentPosition s' = currentPosition s)
  /\ ((pulses s' < pulses s + n)%nat ->
      sensor (pulses s') = LOW /\ (d <= 0)%Z)
  /\ ((0 < d)%Z
      \/ (forall j, (1 <= j <= n)%nat -> sensor (pulses s + j) = HIGH) ->
      pulses s' = (pulses s + n)%nat)
  /\ (contactDetected s = true -> contactDetected s' = true).
Proof.
  intros Hcal d n s' last.
  pose proof (moveToTarget_eq mm s Hcal) as Hrun. cbv zeta in Hrun.
  destruct (move_prepare_fields mm s)
    as (Hp0 & Hpos0 & Hdir0 & Hena0 & Hcal0 & Hfl0).
  rewrite Hcal in Hcal0.
  set (s0 := move_prepare sensor mm s) in *.
  fold d in Hrun, Hdir0. fold n in Hrun.
  set (s1 := move_loop sensor n 0%Z d (currentPosition s) s0) in *.
  destruct (move_finish_fields s1) as (Hp & Hpos & Hdir & _ & Hcal1 & Hfl).
  destruct (move_loop_frame n d (currentPosition s) 0%Z s0)
    as (Hdir1 & _ & Hcal2 & Hp1 & Hfl1).
  fold s1 in Hdir1, Hcal2, Hp1, Hfl1.
  assert (Hps : pulses s' = pulses s1) by (subst s'; now rewrite Hrun).
  assert (Hposs : currentPosition s' = currentPosition s1)
    by (subst s'; now rewrite Hrun).
  rewrite Hp0 in Hp1.
  repeat split.
  - subst s'. rewrite Hrun, Hdir, Hdir1. exact Hdir0.
  - subst s'. rewrite Hrun, Hcal1, Hcal2. exact Hcal0.
  - lia.
  - lia.
  - intros Hd. rewrite Hposs. unfold last. rewrite Hps.
    pose proof (move_loop_position n d (currentPosition s) 0%Z s0
                  (abs_to_nat_pos d Hd)) as Hmp.
    cbv zeta in Hmp. fold s1 in Hmp. rewrite Hp0 in Hmp. exact Hmp.
  - intros Hd. rewrite Hposs. subst s1 n. rewrite Hd. exact Hpos0.
  - rewrite Hps in H.
    destruct (move_loop_short n d (currentPosition s) 0%Z s0) as [Hl _];
      [fold s1; lia|]. fold s1 in Hl. now rewrite Hps.
  - rewrite Hps in H.
    destruct (move_loop_short n d (currentPosition s) 0%Z s0) as [_ Hl];
      [fold s1; lia|].
    rewrite Hdir0 in Hl. destruct (Z.gtb_spec d 0); [discriminate | lia].
  - intros Hfree. rewrite Hps. subst s1. rewrite move_loop_full; [lia|].
    destruct Hfree as [Hd | Hhigh].
    + left. rewrite Hdir0. destruct (Z.gtb_spec d 0); [reflexivity | lia].
    + right. intros j Hj. rewrite Hp0. now apply Hhigh.
  - intros Hs. subst s'. rewrite Hrun, Hfl. apply Hfl1. now rewrite Hfl0.
Qed.

(** Once a check after a pulse has read the line LOW with the direction
    line LOW, no pulse follows: the pulses stop at the first such
    boundary. *)
Lemma move_loop_stops_at_contact (n : nat) (d : Z) (sp : Q) :
  forall (j : nat) (i : Z) (s : State),
  DIR_out s = LOW ->
  (1 <= j)%nat ->
  sensor (pulses s + j) = LOW ->
  (pulses (move_loop sensor n i d sp s) <= pulses s + j)%nat.
Proof.
  induction n as [|n IH]; intros j i s Hdir Hj Hlow.
  - cbn [move_loop]. lia.
  - rewrite move_loop_S. cbv zeta.
    destruct (move_body_fields i d sp s) as (Hp & Hdir1 & _).
    rewrite Hdir1, Hdir, Hp. cbn [level_eqb]. rewrite andb_true_r.
    destruct (sensor (S (pulses s))) eqn:Hnext; cbn [level_eqb].
    + cbn -[move_body]. rewrite Hp. lia.
    + assert (j <> 1)%nat.
      { intros ->. rewrite Nat.add_1_r in Hlow. congruence. }
      specialize (IH (j - 1)%nat (i + 1)%Z (move_body sensor i d sp s)).
      rewrite Hp, Hdir1 in IH.
      replace (S (pulses s) + (j - 1))%nat with (pulses s + j)%nat in IH
        by lia.
      apply IH; [assumption | lia | assumption].
Qed.

(** The first pulse of a move is issued whatever the contact line reads. *)
Lemma moveToTarget_first_pulse_unguarded (mm : Q) (s : State) :
  isCalibrated s = true ->
  stepsToMove_of mm (currentPosition s) <> 0%Z ->
  (pulses s < pulses (moveToTarget sensor mm s))%nat.
Proof.
  intros Hcal Hd.
  destruct (moveToTarget_summary mm s Hcal) as (_ & _ & Hp & _).
  pose proof (abs_to_nat_pos _ Hd). lia.
Qed.

(** The tracked position after a move that issued pulses is the start
    position moved by one step less than the pulses issued. *)
Lemma moveToTarget_position_lags (mm : Q) (s : State) :
  isCalibrated s = true ->
  let d := stepsToMove_of mm (currentPosition s) in
  let s' := moveToTarget sensor mm s in
  let issued := Z.of_nat (pulses s' - pulses s) in
  d <> 0%Z ->
  (1 <= issued)%Z
  /\ currentPosition s'
     == currentPosition s
        + inject_Z (Z.sgn d) * (inject_Z issued - 1) * MM_PER_PULSE.
Proof.
  intros Hcal d s' issued Hd.
  destruct (moveToTarget_summary mm s Hcal) as (_ & _ & Hp & Hpos & _).
  pose proof (abs_to_nat_pos _ Hd) as Hn.
  fold d in Hp, Hpos, Hn. fold s' in Hp, Hpos. specialize (Hpos Hd).
  split; [subst issued; lia|].
  rewrite Hpos. fold issued.
  replace (issued - 1)%Z with (issued + (-1))%Z by lia.
  destruct (Z.gtb_spec d 0).
  - rewrite Z.sgn_pos, inject_Z_plus by lia.
    change (inject_Z (-1)) with (-1). change (inject_Z 1) with 1. ring.
  - rewrite Z.sgn_neg, inject_Z_plus by lia.
    change (inject_Z (-1)) with (-1). ring.
Qed.

(** Asking for the same target again after a move that ran its whole
    count: the plan is one step, one more pulse is issued, and the tracked
    position stays where it was. *)
Lemma moveToTarget_again (mm : Q) (s : State) :
  isCalibrated s = true ->
  let d := stepsToMove_of mm (currentPosition s) in
  let s1 := moveToTarget sensor mm s in
  let s2 := moveToTarget sensor mm s1 in
  d <> 0%Z ->
  pulses s1 = (pulses s + Z.to_nat (abs d))%nat ->
  stepsToMove_of mm (currentPosition s1) = Z.sgn d
  /\ pulses s2 = S (pulses s1)
  /\ currentPosition s2 == currentPosition s1.
Proof.
  intros Hcal d s1 s2 Hd Hfull.
  destruct (moveToTarget_summary mm s Hcal) as (_ & Hcal1 & _ & Hpos & _).
  fold d in Hpos. fold s1 in Hpos, Hcal1. specialize (Hpos Hd).
  rewrite Hfull in Hpos.
  replace (pulses s + Z.to_nat (abs d) - pulses s)%nat
    with (Z.to_nat (abs d)) in Hpos by lia.
  rewrite abs_of_nat in Hpos.
  assert (Hd2 : stepsToMove_of mm (currentPosition s1) = Z.sgn d).
  { rewrite Hpos. destruct (Z.gtb_spec d 0).
    - rewrite Z.abs_eq, Z.sgn_pos by lia.
      now apply stepsToMove_again_away.
    - rewrite Z.abs_neq, Z.sgn_neg by lia.
      apply stepsToMove_again_toward. fold d. lia. }
  split; [exact Hd2|].
  destruct (moveToTarget_summary mm s1 Hcal1) as (_ & _ & Hp2 & Hpos2 & _).
  fold s2 in Hp2, Hpos2. rewrite Hd2 in Hp2, Hpos2.
  assert (Hn : Z.to_nat (abs (Z.sgn d)) = 1%nat)
    by (unfold abs; destruct (Z.gtb_spec (Z.sgn d) 0); lia).
  rewrite Hn in Hp2. cbn [Nat.min] in Hp2.
  assert (Hp : pulses s2 = S (pulses s1)) by lia.
  split; [exact Hp|].
  rewrite Hpos2 by lia. rewrite Hp.
  replace (Z.of_nat (S (pulses s1) - pulses s1) - 1)%Z with 0%Z by lia.
  change (inject_Z 0) with 0. destruct (Z.sgn d >? 0)%Z; ring.
Qed.

(** ** The latched flag *)





(** TARGET:5 twice from position 0. *)
Lemma target_5_twice (s : State) :
  isCalibrated s = true ->
  currentPosition s = 0 ->
  let s1 := moveToTarget sensor 5 s in
  let s2 := moveToTarget sensor 5 s1 in
  (stepsToMove_of 5 (currentPosition s) = 98425)%Z
  /\ pulses s1 = (pulses s + Z.to_nat 98425)%nat
  /\ (stepsToMove_of 5 (currentPosition s1) = 1)%Z
  /\ pulses s2 = S (pulses s1)
  /\ currentPosition s2 == currentPosition s1.
Proof.
  intros Hcal Hzero s1 s2.
  assert (Hd : stepsToMove_of 5 (currentPosition s) = 98425%Z)
    by (rewrite Hzero; vm_compute; reflexivity).
  assert (Habs : abs 98425 = 98425%Z) by reflexivity.
  assert (Hfull : pulses s1 = (pulses s + Z.to_nat 98425)%nat).
  { destruct (moveToTarget_summary 5 s Hcal)
      as (_ & _ & _ & _ & _ & _ & Hfull & _).
    rewrite Hd, Habs in Hfull. apply Hfull. left. reflexivity. }
  destruct (moveToTarget_again 5 s Hcal) as (Hd2 & Hp2 & Hpos2).
  - rewrite Hd. discriminate.
  - rewrite Hd, Habs. exact Hfull.
  - rewrite Hd in Hd2. repeat split; assumption.
Qed.

(** ** What the loops leave alone *)

Lemma move_loop_globals (n : nat) (d : Z) (sp : Q) :
  forall (i : Z) (s : State),
  let s' := move_loop sensor n i d sp s in
  manualControlActive s' = manualControlActive s
  /\ unused_globals s' = unused_globals s.
Proof.
  induction n as [|n IH]; intros i s; cbv zeta.
  - cbn [move_loop]. split; reflexivity.
  - rewrite move_loop_S. cbv zeta.
    assert (Hb : manualControlActive (move_body sensor i d sp s)
                 = manualControlActive s
                 /\ unused_globals (move_body sensor i d sp s)
                    = unused_globals s).
    { unfold move_body. rewrite stepMotor_eq.
      destruct (d >? 0)%Z, (Z.rem i 100 =? 0)%Z; split; reflexivity. }
    destruct Hb as [Hm Hu].
    destruct (level_eqb _ LOW && level_eqb _ LOW).
    + split; [exact Hm | exact Hu].
    + destruct (IH (i + 1)%Z (move_body sensor i d sp s)) as [Hm' Hu'].
      split; congruence.
Qed.

Lemma ccw_loop_globals (n : nat) : forall (s : State),
  let s' := ccw_loop sensor n s in
  isCalibrated s' = isCalibrated s
  /\ manualControlActive s' = manualControlActive s
  /\ unused_globals s' = unused_globals s
  /\ DIR_out s' = DIR_out s
  /\ ENA_out s' = ENA_out s.
Proof.
  induction n as [|n IH]; intros s; cbv zeta; cbn [ccw_loop].
  - repeat split.
  - destruct (level_eqb _ LOW); [repeat split|].
    match goal with
    | |- context [ccw_loop sensor n ?x] =>
        destruct (IH x) as (-> & -> & -> & -> & ->)
    end.
    rewrite stepMotor_eq. repeat split.
Qed.

(** The jog loops step the position once per pulse they issue. *)
Lemma ccw_loop_tracks (n : nat) : forall (s : State),
  let s' := ccw_loop sensor n s in
  (pulses s <= pulses s' <= pulses s + n)%nat
  /\ currentPosition s'
     = Nat.iter (pulses s' - pulses s) step_down (currentPosition s).
Proof.
  induction n as [|n IH]; intros s; cbv zeta; cbn [ccw_loop].
  - split; [lia|]. now rewrite Nat.sub_diag.
  - destruct (level_eqb _ LOW).
    + cbn. split; [lia|]. now rewrite Nat.sub_diag.
    + set (s1 := set_currentPosition _ _).
      assert (Hp1 : pulses s1 = S (pulses s))
        by (subst s1; rewrite stepMotor_eq; reflexivity).
      assert (Hc1 : currentPosition s1 = step_down (currentPosition s))
        by (subst s1; rewrite stepMotor_eq; reflexivity).
      destruct (IH s1) as [Hp Hpos]. rewrite Hp1 in Hp.
      split; [lia|]. rewrite Hpos, Hc1, Hp1.
      replace (pulses (ccw_loop sensor n s1) - pulses s)%nat
        with (S (pulses (ccw_loop sensor n s1) - S (pulses s))) by lia.
      now rewrite Nat.iter_succ_r.
Qed.

Lemma cw_loop_tracks (n : nat) : forall (s : State),
  let s' := cw_loop sensor n s in
  pulses s' = (pulses s + n)%nat
  /\ currentPosition s' = Nat.iter n step_up (currentPosition s)
  /\ serial s' = serial s
  /\ isCalibrated s' = isCalibrated s
  /\ manualControlActive s' = manualControlActive s
  /\ unused_globals s' = unused_globals s
  /\ DIR_out s' = DIR_out s
  /\ ENA_out s' = ENA_out s.
Proof.
  induction n as [|n IH]; intros s; cbv zeta; cbn [cw_loop].
  - repeat split; cbn; lia.
  - set (s1 := set_currentPosition _ _).
    assert (Hs1 : pulses s1 = S (pulses s)
                  /\ currentPosition s1 = step_up (currentPosition s)
                  /\ serial s1 = serial s
                  /\ isCalibrated s1 = isCalibrated s
                  /\ manualControlActive s1 = manualControlActive s
                  /\ unused_globals s1 = unused_globals s
                  /\ DIR_out s1 = DIR_out s
                  /\ ENA_out s1 = ENA_out s)
      by (subst s1; rewrite stepMotor_eq; repeat split).
    destruct Hs1 as (Hp1 & Hc1 & <- & <- & <- & <- & <- & <-).
    destruct (IH s1) as (Hp & Hpos & Hrest).
    split; [lia|]. split; [|exact Hrest].
    now rewrite Hpos, Hc1, Nat.iter_succ_r.
Qed.

Lemma calibration_loop_globals (fuel : nat) : forall (s s' : State),
  calibration_loop sensor fuel s = Some s' ->
  manualControlActive s' = manualControlActive s
  /\ unused_globals s' = unused_globals s
  /\ serial s' = serial s
  /\ contactDetected s' = true.
Proof.
  induction fuel as [|fuel IH]; intros s s'; cbn [calibration_loop];
    destruct (contactDetected s) eqn:Hfl; cbn [negb]; intros Hrun;
    try discriminate.
  - injection Hrun as <-. now repeat split.
  - injection Hrun as <-. now repeat split.
  - destruct (IH _ _ Hrun) as (-> & -> & -> & ->).
    rewrite stepMotor_eq. repeat split.
Qed.

(** ** The routines and the globals *)

Lemma moveToTarget_globals (mm : Q) (s : State) :
  let s' := moveToTarget sensor mm s in
  isCalibrated s' = isCalibrated s
  /\ manualControlActive s' = manualControlActive s
  /\ unused_globals s' = unused_globals s.
Proof.
  cbv zeta. destruct (isCalibrated s) eqn:Hcal.
  - rewrite moveToTarget_eq by exact Hcal.
    set (d := stepsToMove_of mm (currentPosition s)).
    destruct (move_loop_globals (Z.to_nat (abs d)) d (currentPosition s)
                0%Z (move_prepare sensor mm s)) as [Hm Hu].
    destruct (move_loop_frame (Z.to_nat (abs d)) d (currentPosition s)
                0%Z (move_prepare sensor mm s)) as (_ & _ & Hc & _).
    repeat split.
    + cbn [then_ isCalibrated Serial_println Serial_print set_serial
        print_position Serial_println_float].
      rewrite Hc. exact Hcal.
    + cbn [then_ manualControlActive Serial_println Serial_print set_serial
        print_position Serial_println_float].
      rewrite Hm. reflexivity.
    + unfold unused_globals in *.
      cbn [then_ forceRest lastPositionUpdate Serial_println Serial_print
        set_serial print_position Serial_println_float].
      rewrite Hu. reflexivity.
  - unfold moveToTarget. rewrite Hcal. cbn [negb]. repeat split.
    exact Hcal.
Qed.

Lemma manualStepCW_globals (s : State) :
  let s' := manualStepCW sensor s in
  isCalibrated s' = isCalibrated s
  /\ manualControlActive s' = manualControlActive s
  /\ unused_globals s' = unused_globals s.
Proof.
  cbv zeta. unfold manualStepCW. destruct (isCalibrated s) eqn:Hcal;
    cbn [negb]; [|repeat split; exact Hcal].
  match goal with
  | |- context [cw_loop sensor ?n ?x] =>
      destruct (cw_loop_tracks n x) as (_ & _ & _ & -> & -> & -> & _)
  end.
  repeat split. exact Hcal.
Qed.

Lemma manualStepCCW_globals (s : State) :
  let s' := manualStepCCW sensor s in
  isCalibrated s' = isCalibrated s
  /\ manualControlActive s' = manualControlActive s
  /\ unused_globals s' = unused_globals s.
Proof.
  cbv zeta. unfold manualStepCCW. destruct (isCalibrated s) eqn:Hcal;
    cbn [negb]; [|repeat split; exact Hcal].
  destruct (level_eqb _ LOW); [repeat split; exact Hcal|].
  match goal with
  | |- context [ccw_loop sensor ?n ?x] =>
      destruct (ccw_loop_globals n x) as (-> & -> & -> & _)
  end.
  repeat split. exact Hcal.
Qed.

Lemma runCalibration_globals (fuel : nat) (s s' : State) :
  runCalibration sensor fuel s = Some s' ->
  isCalibrated s' = true
  /\ manualControlActive s' = manualControlActive s
  /\ unused_globals s' = unused_globals s
  /\ ENA_out s' = HIGH
  /\ contactDetected s' = true.
Proof.
  unfold runCalibration. destruct (level_eqb _ LOW).
  - intros Hrun. injection Hrun as <-. repeat split.
  - destruct (calibration_loop _ _ _) as [s1|] eqn:Hloop; [|discriminate].
    cbn [option_map]. intros Hrun. injection Hrun as <-.
    destruct (calibration_loop_globals _ _ _ Hloop) as (Hm & Hu & _ & Hfl).
    repeat split.
    + cbn. rewrite Hm. reflexivity.
    + unfold unused_globals in *. cbn. rewrite Hu. reflexivity.
    + cbn. exact Hfl.
Qed.

(** One pass of the listener: what each command may change. *)
Lemma loop_globals (fuel : nat) (c : Command) (s s' : State) :
  loop sensor fuel c s = Some s' ->
  unused_globals s' = unused_globals s
  /\ (isCalibrated s = true -> isCalibrated s' = true)
  /\ (c <> CALIBRATE -> isCalibrated s' = isCalibrated s)
  /\ (c <> MANUAL_READY -> c <> MANUAL_COMPLETE ->
      manualControlActive s' = manualControlActive s).
Proof.
  destruct c; cbn [loop]; intros Hrun;
    try (injection Hrun as <-);
    try (split; [reflexivity|]; split; [tauto|];
         split; [reflexivity|]; (reflexivity || congruence)).
  - destruct (runCalibration_globals _ _ _ Hrun) as (Hc & Hm & Hu & _).
    split; [exact Hu|]. split; [intros _; exact Hc|].
    split; [congruence | intros _ _; exact Hm].
  - destruct (moveToTarget_globals targetDist s) as (Hc & Hm & Hu).
    split; [exact Hu|]. split; [congruence|].
    split; [intros _; exact Hc | intros _ _; exact Hm].
  - destruct (manualControlActive s) eqn:Hg; injection Hrun as <-.
    + destruct (manualStepCW_globals s) as (Hc & Hm & Hu).
      rewrite Hg in Hm.
      split; [exact Hu|]. split; [congruence|].
      split; [intros _; exact Hc | intros _ _; exact Hm].
    + split; [reflexivity|]. split; [tauto|].
      split; [reflexivity | intros _ _; exact Hg].
  - destruct (manualControlActive s) eqn:Hg; injection Hrun as <-.
    + destruct (manualStepCCW_globals s) as (Hc & Hm & Hu).
      rewrite Hg in Hm.
      split; [exact Hu|]. split; [congruence|].
      split; [intros _; exact Hc | intros _ _; exact Hm].
    + split; [reflexivity|]. split; [tauto|].
      split; [reflexivity | intros _ _; exact Hg].
Qed.

(** ** A target move cut short by contact *)

(** With the direction line LOW, a loop that ends on a boundary where the
    contact line reads LOW has left through its [break], after the
    position and error lines. *)
Lemma move_loop_abort_serial (n : nat) (d : Z) (sp : Q) :
  forall (i : Z) (s : State),
  DIR_out s = LOW ->
  (0 < n)%nat ->
  sensor (pulses (move_loop sensor n i d sp s)) = LOW ->
  exists pre,
    serial (move_loop sensor n i d sp s)
    = pre ++ "POSITION:"
        ++ printFloat (currentPosition (move_loop sensor n i d sp s)) 6
        ++ CRLF ++ "ERROR:Unexpected contact detected!" ++ CRLF.
Proof.
  induction n as [|n IH]; intros i s Hdir Hn; [lia|].
  rewrite move_loop_S. cbv zeta.
  destruct (move_body_fields i d sp s) as (Hp & Hdir1 & _).
  rewrite Hdir1, Hdir. cbn [level_eqb]. rewrite andb_true_r.
  destruct (sensor (pulses (move_body sensor i d sp s))) eqn:Hc;
    cbn [level_eqb].
  - intros _. exists (serial (move_body sensor i d sp s)).
    unfold print_position, Serial_println_float, Serial_println,
      Serial_print, then_.
    cbn [serial set_serial currentPosition].
    now rewrite !append_assoc.
  - destruct n as [|n].
    + cbn [move_loop]. congruence.
    + apply IH; [now rewrite Hdir1 | lia].
Qed.

(** Contact first read after pulse [j] of a move toward the hard stop:
    exactly [j] pulses are issued. *)
Lemma move_loop_abort_pulses (n : nat) (d : Z) (sp : Q)
    (j : nat) (i : Z) (s : State) :
  DIR_out s = LOW ->
  (1 <= j <= n)%nat ->
  (forall m, (1 <= m < j)%nat -> sensor (pulses s + m) = HIGH) ->
  sensor (pulses s + j) = LOW ->
  pulses (move_loop sensor n i d sp s) = (pulses s + j)%nat.
Proof.
  intros Hdir Hj Hhigh Hlow.
  pose proof (move_loop_stops_at_contact n d sp j i s Hdir (proj1 Hj) Hlow)
    as Hle.
  destruct (move_loop_frame n d sp i s) as (_ & _ & _ & Hp & _).
  destruct (Nat.eq_dec (pulses (move_loop sensor n i d sp s)) (pulses s + j))
    as [|Hne]; [assumption|].
  destruct (move_loop_short n d sp i s) as [Hl _]; [lia|].
  specialize (Hhigh (pulses (move_loop sensor n i d sp s) - pulses s)%nat).
  replace (pulses s + (pulses (move_loop sensor n i d sp s) - pulses s))%nat
    with (pulses (move_loop sensor n i d sp s)) in Hhigh by lia.
  rewrite Hhigh in Hl; [discriminate | lia].
Qed.

(** ** Homing, pulse by pulse *)

(** With the contact line high for the first [k] boundaries and low at the
    next, the loop issues exactly [k] pulses, whatever bound at least [k]
    it is given. *)
Lemma calibration_loop_exact (k : nat) : forall (fuel : nat) (s : State),
  contactDetected s = false ->
  (forall j, (j < k)%nat -> sensor (pulses s + j) = HIGH) ->
  sensor (pulses s + k) = LOW ->
  (1 <= k <= fuel)%nat ->
  exists s', calibration_loop sensor fuel s = Some s'
             /\ pulses s' = (pulses s + k)%nat
             /\ serial s' = serial s
             /\ DIR_out s' = DIR_out s.
Proof.
  induction k as [|k IH]; intros fuel s Hflag Hhigh Hlow Hk; [lia|].
  destruct fuel as [|fuel]; [lia|].
  cbn [calibration_loop]. rewrite Hflag. cbn [negb].
  assert (H0 : sensor (pulses s) = HIGH).
  { rewrite <- (Nat.add_0_r (pulses s)). apply Hhigh. lia. }
  destruct k as [|k].
  - rewrite Nat.add_1_r in Hlow.
    assert (Hdone : contactDetected (stepMotor sensor s) = true).
    { rewrite stepMotor_eq. cbn. unfold falling. now rewrite H0, Hlow. }
    exists (stepMotor sensor s). split.
    + destruct fuel; cbn [calibration_loop]; now rewrite Hdone.
    + rewrite stepMotor_eq. cbn. repeat split. lia.
  - assert (H1 : sensor (S (pulses s)) = HIGH).
    { rewrite <- Nat.add_1_r. apply Hhigh. lia. }
    destruct (IH fuel (stepMotor sensor s)) as (s' & Hrun & Hp & Hser & Hd).
    + rewrite stepMotor_eq. cbn. unfold falling.
      rewrite H0, H1, Hflag. reflexivity.
    + intros j Hj. rewrite stepMotor_eq. cbn [pulses].
      replace (S (pulses s) + j)%nat with (pulses s + S j)%nat by lia.
      apply Hhigh. lia.
    + rewrite stepMotor_eq. cbn [pulses]. rewrite <- Hlow. f_equal. lia.
    + lia.
    + exists s'. rewrite stepMotor_eq in Hp, Hser, Hd. cbn in Hp, Hser, Hd.
      repeat split; try assumption. lia.
Qed.

(** With the contact line high from here on the loop exhausts every
    bound. *)
Lemma calibration_loop_stuck (fuel : nat) : forall (s : State),
  contactDetected s = false ->
  (forall j, sensor (pulses s + j) = HIGH) ->
  calibration_loop sensor fuel s = None.
Proof.
  induction fuel as [|fuel IH]; intros s Hflag Hhigh; cbn [calibration_loop];
    rewrite Hflag; cbn [negb]; [reflexivity|].
  apply IH.
  - rewrite stepMotor_eq. cbn. unfold falling.
    rewrite <- (Nat.add_1_r (pulses s)), Hhigh, Hflag. cbn.
    now rewrite andb_false_r.
  - intros j. rewrite stepMotor_eq. cbn [pulses].
    replace (S (pulses s) + j)%nat with (pulses s + S j)%nat by lia.
    apply Hhigh.
Qed.

(** The loop in the machine's arithmetic issues the pulses of [ccw_loop],
    and subtracts once for each. *)
Lemma IEEE_ccw_loop_agrees (f : IEEE.format) (n : nat) :
  forall (s : State) (position : spec_float),
  let s' := ccw_loop sensor n s in
  IEEE.ccw_loop f sensor n (pulses s) position
  = (pulses s',
     Nat.iter (pulses s' - pulses s)
       (fun p => IEEE.sub f p (IEEE.MM_PER_PULSE f)) position).
Proof.
  induction n as [|n IH]; intros s position; cbv zeta;
    cbn [ccw_loop IEEE.ccw_loop].
  - now rewrite Nat.sub_diag.
  - rewrite digitalRead_contactPin.
    destruct (sensor (pulses s)); cbn [level_eqb].
    + cbn. now rewrite Nat.sub_diag.
    + set (s1 := set_currentPosition _ _).
      assert (Hp1 : pulses s1 = S (pulses s))
        by (subst s1; rewrite stepMotor_eq; reflexivity).
      destruct (ccw_loop_tracks n s1) as [Hp _]. rewrite Hp1 in Hp.
      rewrite <- Hp1, IH, Hp1.
      replace (pulses (ccw_loop sensor n s1) - pulses s)%nat
        with (S (pulses (ccw_loop sensor n s1) - S (pulses s))) by lia.
      now rewrite Nat.iter_succ_r.
Qed.

(** ** The CCW jog and the live contact line *)


End Properties.

(** * The claims *)

(** C1. The claim is that the contact line is checked before each pulse of
    a move toward the hard stop.  The loop pulses first and reads the line
    afterwards: homed on the hard stop with the contact line low, TARGET:-1
    sets the direction toward the hard stop and issues one pulse before the
    first check stops the move. *)
Theorem pulse_issued_with_contact_asserted :
  exists s,
    run (contact_from 7) 7 [CALIBRATE] boot = Some s
    /\ isCalibrated s = true
    /\ contact_from 7 (pulses s) = LOW
    /\ (stepsToMove_of (-1) (currentPosition s) = -19685)%Z
    /\ DIR_out (moveToTarget (contact_from 7) (-1) s) = LOW
    /\ pulses (moveToTarget (contact_from 7) (-1) s) = S (pulses s).
Proof.
  eexists. split; [vm_compute; reflexivity|].
  repeat split; vm_compute; reflexivity.
Qed.

(** C2. The claim is that the tracked position is the start position plus
    the pulses issued times the resolution.  The loop writes the position
    from its counter before the increment: homed at 0, a move to three
    steps away issues three pulses and leaves the position at two steps. *)
Theorem position_one_step_behind_pulses :
  exists s,
    run (contact_only_at 7) 7 [CALIBRATE] boot = Some s
    /\ currentPosition s = 0
    /\ pulses (moveToTarget (contact_only_at 7) 0.0001524 s)
       = (pulses s + 3)%nat
    /\ currentPosition (moveToTarget (contact_only_at 7) 0.0001524 s)
       == 2 * MM_PER_PULSE
    /\ ~ currentPosition (moveToTarget (contact_only_at 7) 0.0001524 s)
         == 3 * MM_PER_PULSE.
Proof.
  eexists. split; [vm_compute; reflexivity|].
  repeat split; try (vm_compute; reflexivity).
  intros H. vm_compute in H. discriminate H.
Qed.

(** C3. The claim is that a second [moveToTarget] to the same target issues
    no step.  Homed at 0, TARGET:5 issues 98425 pulses and leaves the
    position one step short of the snapped target, so TARGET:5 again plans
    one step and issues one more pulse, the position staying as it was. *)
Theorem repeated_target_issues_a_pulse :
  exists s,
    run (contact_only_at 7) 7 [CALIBRATE] boot = Some s
    /\ let s1 := moveToTarget (contact_only_at 7) 5 s in
       let s2 := moveToTarget (contact_only_at 7) 5 s1 in
       (stepsToMove_of 5 (currentPosition s) = 98425)%Z
       /\ pulses s1 = (pulses s + Z.to_nat 98425)%nat
       /\ (stepsToMove_of 5 (currentPosition s1) = 1)%Z
       /\ pulses s2 = S (pulses s1)
       /\ currentPosition s2 == currentPosition s1.
Proof.
  eexists. split; [vm_compute; reflexivity|].
  apply target_5_twice; reflexivity.
Qed.

(** C4, the claim as stated fails.  Calibration does not always terminate:
    from power-on with a contact line that is never pulled low there is no
    bound on the homing loop within which it returns. *)
Lemma calibration_without_contact_does_not_return :
  ~ exists fuel s', runCalibration never_contact fuel boot = Some s'.
Proof.
  intros (fuel & s' & Hrun). revert Hrun. unfold runCalibration.
  rewrite digitalRead_contactPin. cbn [never_contact level_eqb].
  rewrite calibration_loop_stuck;
    [discriminate | reflexivity | intros j; reflexivity].
Qed.

(** C4, amended.  Calibration re-zeroes whatever the prior state: every run of
    [runCalibration] that returns leaves [currentPosition = 0] and
    [isCalibrated = true]; it returns within [k] loop iterations when the
    contact line is low after [k] more pulses, and with the line already
    low at entry it returns at once ([k = 0]) without a pulse. *)
Theorem runCalibration_zeroes_and_calibrates
    (sensor : nat -> level) (s : State) (k : nat) :
  sensor (pulses s + k)%nat = LOW ->
  (exists s', runCalibration sensor k s = Some s'
              /\ currentPosition s' = 0
              /\ isCalibrated s' = true
              /\ (pulses s' <= pulses s + k)%nat
              /\ (sensor (pulses s) = LOW -> pulses s' = pulses s))
  /\ (forall fuel s', runCalibration sensor fuel s = Some s' ->
        currentPosition s' = 0 /\ isCalibrated s' = true).
Proof.
  intros Hlow. split.
  - destruct (calibration_start_fields sensor s) as (Hflag & Hp0 & _).
    unfold runCalibration. rewrite digitalRead_contactPin, Hp0.
    destruct (sensor (pulses s)) eqn:Hentry; cbn [level_eqb].
    + eexists. split; [reflexivity|].
      repeat split. change (pulses s <= pulses s + k)%nat. lia.
    + destruct (calibration_loop_terminates sensor k
                  (calibration_start sensor s)) as (s' & Hrun & Hp & _);
        rewrite ?Hp0; try assumption.
      rewrite Hrun. cbn [option_map]. eexists. split; [reflexivity|].
      rewrite Hp0 in Hp.
      destruct (calibration_finish_fields sensor s') as (-> & -> & _ & ->).
      repeat split; [lia | congruence].
  - intros fuel s' Hrun. unfold runCalibration in Hrun.
    destruct (level_eqb _ LOW).
    + injection Hrun as <-. split; reflexivity.
    + destruct (calibration_loop _ _ _); [|discriminate].
      injection Hrun as <-. split; reflexivity.
Qed.

Lemma runCalibration_zeroes_and_calibrates_witness :
  contact_from 7 (pulses boot + 7)%nat = LOW
  /\ exists s', runCalibration (contact_from 7) 7 boot = Some s'
                /\ currentPosition s' = 0
                /\ isCalibrated s' = true
                /\ (pulses s' <= pulses boot + 7)%nat
                /\ (contact_from 7 (pulses boot) = LOW
                    -> pulses s' = pulses boot).
Proof.
  split; [reflexivity|].
  apply (runCalibration_zeroes_and_calibrates (contact_from 7) boot 7).
  reflexivity.
Defined.

(** C5. With [isCalibrated] false, [moveToTarget] and both jog routines
    only write [ERROR:NOT_CALIBRATED] to the serial line: no pulse is
    issued and the position, the calibration flag and the direction and
    enable lines keep their values. *)
Theorem uncalibrated_motion_rejected
    (sensor : nat -> level) (s : State) (mm : Q) :
  isCalibrated s = false ->
  let rejected := set_serial (serial s ++ "ERROR:NOT_CALIBRATED" ++ CRLF) s in
  moveToTarget sensor mm s = rejected
  /\ manualStepCCW sensor s = rejected
  /\ manualStepCW sensor s = rejected
  /\ pulses rejected = pulses s
  /\ currentPosition rejected = currentPosition s
  /\ isCalibrated rejected = false
  /\ DIR_out rejected = DIR_out s
  /\ ENA_out rejected = ENA_out s
  /\ contactDetected rejected = contactDetected s.
Proof.
  intros Hcal rejected.
  unfold moveToTarget, manualStepCCW, manualStepCW.
  rewrite Hcal. cbn [negb].
  repeat split. exact Hcal.
Qed.

Lemma uncalibrated_motion_rejected_witness :
  isCalibrated boot = false
  /\ moveToTarget never_contact 3 boot
     = set_serial (serial boot ++ "ERROR:NOT_CALIBRATED" ++ CRLF) boot
  /\ pulses (manualStepCCW never_contact boot) = pulses boot.
Proof.
  split; [reflexivity|].
  destruct (uncalibrated_motion_rejected never_contact boot 3 eq_refl)
    as (Hmove & Hccw & _ & Hp & _).
  split; [exact Hmove | now rewrite Hccw].
Defined.

(** C6, the claim as stated fails.  A CCW jog from position 0.001016 whose
    contact line goes low after seven pulses issues seven pulses and
    executes line 204 seven times; in the arithmetic of the boards, with a
    64-bit and with a 32-bit [double] alike, the position so reached is
    not the start lowered by seven times [MM_PER_PULSE]: the seven rounded
    subtractions and the single one differ, and the amount lowered is not
    seven times the constant. *)
Lemma jog_decrements_not_exact :
  let jog f :=
    IEEE.ccw_loop f (contact_from 7) (Z.to_nat STEPS_PER_COMMAND) 0
      (IEEE.literal f 1016 1000000) in
  let once f :=
    IEEE.sub f (IEEE.literal f 1016 1000000)
      (IEEE.mul f (IEEE.of_Z f 7) (IEEE.MM_PER_PULSE f)) in
  let lowered f :=
    IEEE.value (IEEE.literal f 1016 1000000) - IEEE.value (snd (jog f)) in
  fst (jog IEEE.binary64) = 7%nat
  /\ snd (jog IEEE.binary64) <> once IEEE.binary64
  /\ ~ lowered IEEE.binary64
       == 7 * IEEE.value (IEEE.MM_PER_PULSE IEEE.binary64)
  /\ fst (jog IEEE.binary32) = 7%nat
  /\ snd (jog IEEE.binary32) <> once IEEE.binary32
  /\ ~ lowered IEEE.binary32
       == 7 * IEEE.value (IEEE.MM_PER_PULSE IEEE.binary32).
Proof.
  cbv zeta.
  repeat split; try (vm_compute; reflexivity);
    intros H; vm_compute in H; discriminate H.
Qed.

(** C6, amended.  In a CCW jog the contact line is read before each pulse:
    when it is high before the first [N] pulses and low before the next
    one ([N < STEPS_PER_COMMAND]), exactly [N] pulses are issued, the
    position has been lowered [N] times by [MM_PER_PULSE], once after each
    pulse, and the batch ends with one WARNING line, no ERROR line, the
    axis still calibrated. *)
Theorem ccw_jog_stops_at_contact
    (sensor : nat -> level) (s : State) (N : nat) :
  isCalibrated s = true ->
  (Z.of_nat N < STEPS_PER_COMMAND)%Z ->
  (forall j, (j < N)%nat -> sensor (pulses s + j)%nat = HIGH) ->
  sensor (pulses s + N)%nat = LOW ->
  let s' := manualStepCCW sensor s in
  pulses s' = (pulses s + N)%nat
  /\ currentPosition s' = Nat.iter N step_down (currentPosition s)
  /\ serial s'
     = serial s
       ++ (if (N =? 0)%nat then "WARNING: Contact already detected!"
           else "WARNING: Contact detected during movement!") ++ CRLF
  /\ isCalibrated s' = true
  /\ contactDetected s' = true
  /\ DIR_out s' = LOW.
Proof.
  intros Hcal HN Hhigh Hlow. cbv zeta. unfold manualStepCCW.
  rewrite Hcal. cbn [negb].
  rewrite digitalRead_contactPin.
  set (s0 := (_ ;; _) _).
  assert (Hs0 : s0 = set_contactDetected false
                       (set_ENA_out LOW (set_DIR_out LOW s)))
    by reflexivity.
  assert (Hp0 : pulses s0 = pulses s) by (rewrite Hs0; reflexivity).
  rewrite Hp0.
  destruct N as [|N].
  - rewrite Nat.add_0_r in Hlow. rewrite Hlow. cbn [level_eqb Nat.eqb].
    rewrite Hs0. repeat split; cbn; [lia | exact Hcal].
  - replace (sensor (pulses s)) with HIGH
      by (rewrite <- (Hhigh 0%nat), Nat.add_0_r; [reflexivity | lia]).
    cbn [level_eqb Nat.eqb].
    destruct (ccw_loop_contact sensor (S N) (Z.to_nat STEPS_PER_COMMAND) s0)
      as (Hp & Hpos & Hser & Hflag & Hcal' & Hdir).
    + unfold STEPS_PER_COMMAND in *. lia.
    + intros j Hj. rewrite Hp0. now apply Hhigh.
    + now rewrite Hp0.
    + rewrite Hp, Hpos, Hser, Hcal', Hdir, Hp0, Hs0.
      repeat split; try assumption; reflexivity.
Qed.

Lemma ccw_jog_stops_at_contact_witness :
  let s := set_isCalibrated true (set_currentPosition 0.001016 boot) in
  isCalibrated s = true
  /\ (Z.of_nat 7 < STEPS_PER_COMMAND)%Z
  /\ contact_from 7 (pulses s + 7)%nat = LOW
  /\ pulses (manualStepCCW (contact_from 7) s) = 7%nat
  /\ currentPosition (manualStepCCW (contact_from 7) s)
     = Nat.iter 7 step_down 0.001016.
Proof.
  cbv zeta.
  split; [reflexivity|]. split; [reflexivity|]. split; [reflexivity|].
  destruct (ccw_jog_stops_at_contact (contact_from 7)
              (set_isCalibrated true (set_currentPosition 0.001016 boot)) 7)
    as (Hp & Hpos & _).
  - reflexivity.
  - reflexivity.
  - intros j Hj. unfold contact_from. cbn [pulses boot plus].
    destruct (Nat.leb_spec 7 (pulses (set_isCalibrated true
                (set_currentPosition 0.001016 boot)) + j)); [|reflexivity].
    cbn in H. lia.
  - reflexivity.
  - split; [exact Hp | exact Hpos].
Defined.




(** C8. [stopMotor] (REST) drives the enable line HIGH, which disables the
    driver, writes the rest banner and the current position, and leaves
    [currentPosition] and [isCalibrated] as they were, for every prior
    state. *)
Theorem rest_keeps_position_and_calibration
    (sensor : nat -> level) (s : State) :
  let s' := stopMotor sensor s in
  currentPosition s' = currentPosition s
  /\ isCalibrated s' = isCalibrated s
  /\ ENA_out s' = HIGH
  /\ pulses s' = pulses s
  /\ DIR_out s' = DIR_out s
  /\ serial s' = serial s ++ "Entering Rest State." ++ CRLF
                  ++ "POSITION:" ++ printFloat (currentPosition s) 6 ++ CRLF.
Proof.
  cbv zeta. repeat split. apply stopMotor_serial.
Qed.

(** C9. Until a calibration completes, the position holds the sentinel
    [-999] of its initialiser: after any sequence of received lines without
    CALIBRATE the listener is still uncalibrated with
    [currentPosition = -999], and MANUAL:STOP and REST then write
    [POSITION:-999.000000]. *)
Theorem sentinel_position_reported
    (sensor : nat -> level) (fuel : nat) (commands : list Command) :
  ~ In CALIBRATE commands ->
  exists s,
    run sensor fuel commands boot = Some s
    /\ currentPosition s = -999
    /\ isCalibrated s = false
    /\ (exists s1, loop sensor fuel MANUAL_STOP s = Some s1
          /\ serial s1 = serial s ++ "POSITION:-999.000000" ++ CRLF)
    /\ (exists s2, loop sensor fuel REST s = Some s2
          /\ serial s2 = serial s ++ "Entering Rest State." ++ CRLF
                          ++ "POSITION:-999.000000" ++ CRLF).
Proof.
  intros Hnot.
  destruct (run_keeps_uncalibrated sensor fuel commands boot Hnot)
    as (s & Hrun & Hcal & Hpos); [split; reflexivity|].
  exists s. repeat split; try assumption.
  - eexists. split; [reflexivity|].
    rewrite manualStopMotor_serial, Hpos, printFloat_sentinel.
    reflexivity.
  - eexists. split; [reflexivity|].
    rewrite stopMotor_serial, Hpos, printFloat_sentinel. reflexivity.
Qed.

Lemma sentinel_position_reported_witness :
  ~ In CALIBRATE [TARGET 3; MANUAL_READY; MANUAL_CCW; REST]
  /\ exists s,
       run never_contact 0 [TARGET 3; MANUAL_READY; MANUAL_CCW; REST] boot
         = Some s
       /\ currentPosition s = -999.
Proof.
  assert (Hnot : ~ In CALIBRATE [TARGET 3; MANUAL_READY; MANUAL_CCW; REST]).
  { cbn. intros [H|[H|[H|[H|[]]]]]; discriminate H. }
  split; [exact Hnot|].
  destruct (sentinel_position_reported never_contact 0 _ Hnot)
    as (s & Hrun & Hpos & _).
  exists s. split; assumption.
Defined.




(** * Further properties of the sketch *)

(** X1. A CW jog on a calibrated axis reads no sensor: whatever the contact
    line does it issues the whole batch of [STEPS_PER_COMMAND] pulses with
    the direction line HIGH and the driver enabled, adds [MM_PER_PULSE] to
    the position once after each pulse and writes nothing to the serial
    line. *)
Theorem cw_jog_issues_full_batch (sensor : nat -> level) (s : State) :
  isCalibrated s = true ->
  let s' := manualStepCW sensor s in
  pulses s' = (pulses s + Z.to_nat STEPS_PER_COMMAND)%nat
  /\ currentPosition s'
     = Nat.iter (Z.to_nat STEPS_PER_COMMAND) step_up (currentPosition s)
  /\ DIR_out s' = HIGH
  /\ ENA_out s' = LOW
  /\ serial s' = serial s
  /\ isCalibrated s' = true.
Proof.
  intros Hcal. cbv zeta. unfold manualStepCW. rewrite Hcal. cbn [negb].
  set (s0 := (_ ;; _) s).
  destruct (cw_loop_tracks sensor (Z.to_nat STEPS_PER_COMMAND) s0)
    as (Hp & Hpos & Hser & Hc & _ & _ & Hdir & Hena).
  rewrite Hp, Hpos, Hser, Hc, Hdir, Hena.
  repeat split; try reflexivity. exact Hcal.
Qed.

Lemma cw_jog_issues_full_batch_witness :
  let s := set_isCalibrated true (set_currentPosition 0 boot) in
  isCalibrated s = true
  /\ pulses (manualStepCW (contact_from 3) s) = 20%nat
  /\ currentPosition (manualStepCW (contact_from 3) s)
     = Nat.iter 20 step_up 0.
Proof.
  cbv zeta. split; [reflexivity|].
  destruct (cw_jog_issues_full_batch (contact_from 3)
              (set_isCalibrated true (set_currentPosition 0 boot)) eq_refl)
    as (Hp & Hpos & _).
  split; [exact Hp | exact Hpos].
Defined.

(** X2. A CCW jog on a calibrated axis, whatever the contact line does:
    it issues at most [STEPS_PER_COMMAND] pulses, with the direction line
    LOW and the driver enabled, and it subtracts [MM_PER_PULSE] from the
    position once for each pulse issued, no more and no less. *)
Theorem ccw_jog_tracks_pulses (sensor : nat -> level) (s : State) :
  isCalibrated s = true ->
  let s' := manualStepCCW sensor s in
  (pulses s <= pulses s' <= pulses s + Z.to_nat STEPS_PER_COMMAND)%nat
  /\ currentPosition s'
     = Nat.iter (pulses s' - pulses s) step_down (currentPosition s)
  /\ DIR_out s' = LOW
  /\ ENA_out s' = LOW
  /\ isCalibrated s' = true.
Proof.
  intros Hcal. cbv zeta. unfold manualStepCCW. rewrite Hcal. cbn [negb].
  set (s0 := (_ ;; _) s).
  assert (Hs0 : s0 = set_contactDetected false
                       (set_ENA_out LOW (set_DIR_out LOW s)))
    by reflexivity.
  destruct (level_eqb _ LOW).
  - rewrite Hs0. cbn. split; [lia|]. rewrite Nat.sub_diag.
    repeat split. exact Hcal.
  - destruct (ccw_loop_tracks sensor (Z.to_nat STEPS_PER_COMMAND) s0)
      as (Hp & Hpos).
    destruct (ccw_loop_globals sensor (Z.to_nat STEPS_PER_COMMAND) s0)
      as (Hc & _ & _ & Hdir & Hena).
    rewrite Hpos, Hc, Hdir, Hena. rewrite Hs0 in Hp |- *.
    cbn [pulses currentPosition isCalibrated DIR_out ENA_out
      set_contactDetected set_ENA_out set_DIR_out] in Hp |- *.
    repeat split; try lia; try reflexivity. exact Hcal.
Qed.

Lemma ccw_jog_tracks_pulses_witness :
  let s := set_isCalibrated true (set_currentPosition 0.000508 boot) in
  isCalibrated s = true
  /\ (pulses (manualStepCCW (contact_from 4) s) <= 20)%nat
  /\ DIR_out (manualStepCCW (contact_from 4) s) = LOW.
Proof.
  cbv zeta. split; [reflexivity|].
  destruct (ccw_jog_tracks_pulses (contact_from 4)
              (set_isCalibrated true (set_currentPosition 0.000508 boot))
              eq_refl) as (Hp & _ & Hdir & _).
  split; [apply Hp | exact Hdir].
Defined.

(** X3. A CCW jog on a calibrated axis with the contact line high before
    each pulse of the batch issues all [STEPS_PER_COMMAND] pulses,
    subtracts [MM_PER_PULSE] from the position once after each of them and
    writes nothing to the serial line. *)
Theorem ccw_jog_full_batch_without_contact
    (sensor : nat -> level) (s : State) :
  isCalibrated s = true ->
  (forall j, (Z.of_nat j < STEPS_PER_COMMAND)%Z ->
             sensor (pulses s + j)%nat = HIGH) ->
  let s' := manualStepCCW sensor s in
  pulses s' = (pulses s + Z.to_nat STEPS_PER_COMMAND)%nat
  /\ currentPosition s'
     = Nat.iter (Z.to_nat STEPS_PER_COMMAND) step_down (currentPosition s)
  /\ serial s' = serial s.
Proof.
  intros Hcal Hhigh. cbv zeta. unfold manualStepCCW. rewrite Hcal.
  cbn [negb]. rewrite digitalRead_contactPin.
  set (s0 := (_ ;; _) s).
  assert (Hs0 : s0 = set_contactDetected false
                       (set_ENA_out LOW (set_DIR_out LOW s)))
    by reflexivity.
  assert (Hp0 : pulses s0 = pulses s) by (rewrite Hs0; reflexivity).
  rewrite Hp0.
  replace (sensor (pulses s)) with HIGH
    by (rewrite <- (Hhigh 0%nat), Nat.add_0_r;
        [reflexivity | unfold STEPS_PER_COMMAND; lia]).
  cbn [level_eqb].
  destruct (ccw_loop_full sensor (Z.to_nat STEPS_PER_COMMAND) s0)
    as (Hp & Hpos & Hser).
  - intros j Hj. rewrite Hp0. apply Hhigh. unfold STEPS_PER_COMMAND in *.
    lia.
  - rewrite Hp, Hpos, Hser, Hs0. repeat split.
Qed.

Lemma ccw_jog_full_batch_without_contact_witness :
  let s := set_isCalibrated true (set_currentPosition 0.00254 boot) in
  isCalibrated s = true
  /\ pulses (manualStepCCW never_contact s) = 20%nat
  /\ serial (manualStepCCW never_contact s) = serial s.
Proof.
  cbv zeta. split; [reflexivity|].
  destruct (ccw_jog_full_batch_without_contact never_contact
              (set_isCalibrated true (set_currentPosition 0.00254 boot))
              eq_refl) as (Hp & _ & Hser).
  - intros j _. reflexivity.
  - split; [exact Hp | exact Hser].
Defined.

(** X5. A move of a calibrated axis planned away from the hard stop, with a
    positive count that fits a [long], cannot be cut short: whatever the
    contact line reads, the direction line is HIGH, the whole count is
    issued, and the position is left by the assignment of the last
    iteration, one step below the count. *)
Theorem move_away_runs_whole_count
    (sensor : nat -> level) (s : State) (mm : Q) :
  isCalibrated s = true ->
  plan_fits_long mm (currentPosition s) ->
  let d := stepsToMove_of mm (currentPosition s) in
  let s' := moveToTarget sensor mm s in
  (0 < d)%Z ->
  DIR_out s' = HIGH
  /\ pulses s' = (pulses s + Z.to_nat d)%nat
  /\ currentPosition s'
     = currentPosition s + inject_Z (d - 1) * MM_PER_PULSE.
Proof.
  intros Hcal _ d s' Hd.
  destruct (moveToTarget_summary sensor mm s Hcal)
    as (Hdir & _ & _ & Hpos & _ & _ & Hfull & _).
  fold d in Hdir, Hpos, Hfull. fold s' in Hdir, Hpos, Hfull.
  assert (Habs : abs d = d) by (unfold abs; destruct (Z.gtb_spec d 0); lia).
  rewrite Habs in Hfull.
  assert (Hgt : (d >? 0)%Z = true) by (apply Z.gtb_lt; exact Hd).
  rewrite Hgt in Hdir, Hpos.
  specialize (Hfull (or_introl Hd)).
  split; [exact Hdir|]. split; [exact Hfull|].
  rewrite Hpos by lia. rewrite Hfull.
  replace (Z.of_nat (pulses s + Z.to_nat d - pulses s) - 1)%Z
    with (d - 1)%Z by lia.
  reflexivity.
Qed.

Lemma move_away_runs_whole_count_witness :
  let s := set_isCalibrated true (set_currentPosition 0 boot) in
  isCalibrated s = true
  /\ plan_fits_long 0.000508 (currentPosition s)
  /\ (0 < stepsToMove_of 0.000508 (currentPosition s))%Z
  /\ DIR_out (moveToTarget always_low 0.000508 s) = HIGH
  /\ pulses (moveToTarget always_low 0.000508 s) = 10%nat.
Proof.
  assert (Hfits : plan_fits_long 0.000508 0)
    by (split; split; vm_compute; discriminate).
  cbv zeta. split; [reflexivity|]. split; [exact Hfits|].
  split; [vm_compute; reflexivity|].
  destruct (move_away_runs_whole_count always_low
              (set_isCalibrated true (set_currentPosition 0 boot)) 0.000508)
    as (Hdir & Hp & _); [reflexivity | exact Hfits | vm_compute; reflexivity|].
  split; [exact Hdir|]. rewrite Hp. vm_compute. reflexivity.
Defined.

(** X6. A move toward the hard stop on a calibrated axis whose contact
    line first reads LOW after pulse [j] of the planned count issues
    exactly [j] pulses, leaves the position [j - 1] steps below the start,
    and ends its output with the position, the unexpected-contact error,
    the position again and STATUS:TARGET_COMPLETE. *)
Theorem target_move_cut_short_at_first_contact
    (sensor : nat -> level) (s : State) (mm : Q) (j : nat) :
  isCalibrated s = true ->
  let d := stepsToMove_of mm (currentPosition s) in
  let s' := moveToTarget sensor mm s in
  (d < 0)%Z ->
  (1 <= Z.of_nat j <= - d)%Z ->
  (forall m, (1 <= m < j)%nat -> sensor (pulses s + m)%nat = HIGH) ->
  sensor (pulses s + j)%nat = LOW ->
  pulses s' = (pulses s + j)%nat
  /\ currentPosition s'
     == currentPosition s - (inject_Z (Z.of_nat j) - 1) * MM_PER_PULSE
  /\ exists pre,
       serial s'
       = pre ++ "POSITION:" ++ printFloat (currentPosition s') 6 ++ CRLF
           ++ "ERROR:Unexpected contact detected!" ++ CRLF
           ++ "POSITION:" ++ printFloat (currentPosition s') 6 ++ CRLF
           ++ "STATUS:TARGET_COMPLETE" ++ CRLF.
Proof.
  intros Hcal d s' Hd Hj Hhigh Hlow.
  assert (Hgt : (d >? 0)%Z = false)
    by (destruct (Z.gtb_spec d 0); [lia | reflexivity]).
  assert (Habs : abs d = (- d)%Z) by (unfold abs; now rewrite Hgt).
  pose proof (moveToTarget_eq sensor mm s Hcal) as Hrun. cbv zeta in Hrun.
  fold d in Hrun. fold s' in Hrun.
  destruct (move_prepare_fields sensor mm s) as (Hp0 & _ & Hdir0 & _).
  fold d in Hdir0. rewrite Hgt in Hdir0.
  set (s0 := move_prepare sensor mm s) in *.
  set (n := Z.to_nat (abs d)) in *.
  assert (Hn : (1 <= j <= n)%nat) by (subst n; rewrite Habs; lia).
  assert (Hp : pulses (move_loop sensor n 0%Z d (currentPosition s) s0)
               = (pulses s + j)%nat).
  { rewrite <- Hp0.
    apply move_loop_abort_pulses; rewrite ?Hp0; assumption. }
  pose proof (move_loop_position sensor n d (currentPosition s) 0%Z s0)
    as Hpos.
  cbv zeta in Hpos. rewrite Hp, Hp0, Hgt in Hpos.
  destruct (move_loop_abort_serial sensor n d (currentPosition s) 0%Z s0)
    as [pre Hser]; [exact Hdir0 | lia | now rewrite Hp |].
  set (s1 := move_loop sensor n 0%Z d (currentPosition s) s0) in *.
  assert (Hc : currentPosition s' = currentPosition s1)
    by (rewrite Hrun; reflexivity).
  split; [rewrite Hrun; exact Hp|]. split.
  - rewrite Hc, Hpos by lia.
    replace (0 + Z.of_nat (pulses s + j - pulses s) - 1)%Z
      with (Z.of_nat j + (-1))%Z by lia.
    rewrite inject_Z_plus. change (inject_Z (-1)) with (-1). ring.
  - exists pre. rewrite Hc. rewrite Hrun.
    unfold print_position, Serial_println_float, Serial_println,
      Serial_print, then_.
    cbn [serial set_serial currentPosition]. rewrite Hser.
    now rewrite !append_assoc.
Qed.

Lemma target_move_cut_short_at_first_contact_witness :
  let s := set_isCalibrated true (set_currentPosition 0.000508 boot) in
  isCalibrated s = true
  /\ (stepsToMove_of 0 (currentPosition s) = -10)%Z
  /\ contact_from 4 (pulses s + 4)%nat = LOW
  /\ pulses (moveToTarget (contact_from 4) 0 s) = 4%nat
  /\ currentPosition (moveToTarget (contact_from 4) 0 s)
     == 0.000508 - 3 * MM_PER_PULSE.
Proof.
  cbv zeta. split; [reflexivity|]. split; [vm_compute; reflexivity|].
  split; [reflexivity|].
  destruct (target_move_cut_short_at_first_contact (contact_from 4)
              (set_isCalibrated true (set_currentPosition 0.000508 boot))
              0 4) as (Hp & Hpos & _).
  - reflexivity.
  - vm_compute. reflexivity.
  - vm_compute. split; discriminate.
  - intros m Hm. unfold contact_from.
    destruct (Nat.leb_spec 4 (pulses (set_isCalibrated true
                (set_currentPosition 0.000508 boot)) + m)) as [Hge|];
      [|reflexivity].
    cbn in Hge. lia.
  - reflexivity.
  - split; [exact Hp | exact Hpos].
Defined.

(** X9. Homing issues pulses until the contact line first reads low and no
    further: with the line high at the first [k] pulse boundaries and low
    at the next, [runCalibration] returns after exactly [k] pulses with the
    direction line LOW, the driver disabled and the latched flag set, and
    writes the start line, the already-in-contact notice when [k] is zero,
    POSITION:0 and the completion line. *)
Theorem homing_pulses_until_first_contact
    (sensor : nat -> level) (s : State) (k fuel : nat) :
  (forall j, (j < k)%nat -> sensor (pulses s + j)%nat = HIGH) ->
  sensor (pulses s + k)%nat = LOW ->
  (k <= fuel)%nat ->
  exists s',
    runCalibration sensor fuel s = Some s'
    /\ pulses s' = (pulses s + k)%nat
    /\ DIR_out s' = LOW
    /\ ENA_out s' = HIGH
    /\ contactDetected s' = true
    /\ serial s'
       = serial s ++ "STATUS:CALIBRATION_START" ++ CRLF
           ++ (if (k =? 0)%nat then "Contact already detected!" ++ CRLF
               else "")
           ++ "POSITION:0" ++ CRLF
           ++ "STATUS:CALIBRATION_COMPLETE" ++ CRLF.
Proof.
  intros Hhigh Hlow Hfuel.
  destruct (calibration_start_fields sensor s) as (Hflag & Hp0 & Hdir0).
  assert (Hser0 : serial (calibration_start sensor s)
                  = serial s ++ "STATUS:CALIBRATION_START" ++ CRLF)
    by reflexivity.
  unfold runCalibration. rewrite digitalRead_contactPin, Hp0.
  destruct k as [|k].
  - rewrite Nat.add_0_r in Hlow. rewrite Hlow. cbn [level_eqb Nat.eqb].
    eexists. split; [reflexivity|].
    repeat split; [cbn; lia|].
    unfold calibration_finish, Serial_println, Serial_print, then_.
    rewrite digitalWrite_ENA_PIN. cbn [serial set_serial set_ENA_out
      set_isCalibrated set_currentPosition set_contactDetected].
    rewrite Hser0. now rewrite !append_assoc.
  - replace (sensor (pulses s)) with HIGH
      by (rewrite <- (Hhigh 0%nat), Nat.add_0_r; [reflexivity | lia]).
    cbn [level_eqb Nat.eqb].
    destruct (calibration_loop_exact sensor (S k) fuel
                (calibration_start sensor s))
      as (s1 & Hrun & Hp & Hser & Hdir); rewrite ?Hp0; try assumption;
      [lia|].
    rewrite Hrun. cbn [option_map]. eexists. split; [reflexivity|].
    destruct (calibration_loop_globals sensor _ _ _ Hrun) as (_ & _ & _ & Hfl).
    split; [exact Hp|]. split; [cbn; congruence|]. split; [reflexivity|].
    split; [exact Hfl|].
    unfold calibration_finish, Serial_println, Serial_print, then_.
    rewrite digitalWrite_ENA_PIN. cbn [serial set_serial set_ENA_out
      set_isCalibrated set_currentPosition].
    rewrite Hser, Hser0. now rewrite !append_assoc.
Qed.

Lemma homing_pulses_until_first_contact_witness :
  contact_from 7 (pulses boot + 7)%nat = LOW
  /\ exists s', runCalibration (contact_from 7) 12 boot = Some s'
                /\ pulses s' = 7%nat.
Proof.
  split; [reflexivity|].
  destruct (homing_pulses_until_first_contact (contact_from 7) boot 7 12)
    as (s' & Hrun & Hp & _).
  - intros j Hj. unfold contact_from.
    destruct (Nat.leb_spec 7 (pulses boot + j)) as [Hge|]; [|reflexivity].
    cbn in Hge. lia.
  - reflexivity.
  - lia.
  - exists s'. split; [exact Hrun | exact Hp].
Defined.

(** X10. Homing has no other exit than contact: with the contact line high
    at every pulse boundary from the current one on, [runCalibration] does
    not return, whatever bound is put on its loop. *)
Theorem homing_without_contact_never_returns
    (sensor : nat -> level) (s : State) :
  (forall j, sensor (pulses s + j)%nat = HIGH) ->
  forall fuel, runCalibration sensor fuel s = None.
Proof.
  intros Hhigh fuel.
  destruct (calibration_start_fields sensor s) as (Hflag & Hp0 & _).
  unfold runCalibration. rewrite digitalRead_contactPin, Hp0.
  replace (sensor (pulses s)) with HIGH
    by (rewrite <- (Hhigh 0%nat), Nat.add_0_r; reflexivity).
  cbn [level_eqb].
  rewrite calibration_loop_stuck; [reflexivity | exact Hflag |].
  intros j. rewrite Hp0. apply Hhigh.
Qed.

Lemma homing_without_contact_never_returns_witness :
  (forall j, never_contact (pulses boot + j)%nat = HIGH)
  /\ runCalibration never_contact 1000 boot = None.
Proof.
  assert (H : forall j, never_contact (pulses boot + j)%nat = HIGH)
    by (intros j; reflexivity).
  split; [exact H|].
  apply (homing_without_contact_never_returns never_contact boot H).
Defined.

(** X11. Calibration is sticky: no command clears [isCalibrated], so a
    calibrated axis is still calibrated after any sequence of commands
    that returns. *)
Theorem calibration_is_never_cleared
    (sensor : nat -> level) (fuel : nat) (commands : list Command) :
  forall s s',
  isCalibrated s = true ->
  run sensor fuel commands s = Some s' ->
  isCalibrated s' = true.
Proof.
  induction commands as [|c cs IH]; intros s s' Hcal; cbn [run].
  - intros Hrun. injection Hrun as <-. exact Hcal.
  - destruct (loop sensor fuel c s) as [s1|] eqn:Hloop; [|discriminate].
    apply IH.
    destruct (loop_globals sensor fuel c s s1 Hloop) as (_ & Hkeep & _).
    apply Hkeep. exact Hcal.
Qed.

Lemma calibration_is_never_cleared_witness :
  let s := set_isCalibrated true (set_currentPosition 0 boot) in
  isCalibrated s = true
  /\ exists s',
       run never_contact 0 [TARGET 0.000508; REST; MANUAL_READY; MANUAL_CW;
                            MANUAL_COMPLETE; Other "RESET"] s = Some s'
       /\ isCalibrated s' = true.
Proof.
  cbv zeta. split; [reflexivity|].
  eexists. split; [vm_compute; reflexivity|].
  eapply (calibration_is_never_cleared never_contact 0
            [TARGET 0.000508; REST; MANUAL_READY; MANUAL_CW;
             MANUAL_COMPLETE; Other "RESET"]
            (set_isCalibrated true (set_currentPosition 0 boot))).
  - reflexivity.
  - vm_compute. reflexivity.
Defined.

(** X13. While the jog gate [manualControlActive] is clear, jog commands
    do nothing to the axis: a sequence of commands that holds no
    CALIBRATE, TARGET or MANUAL:READY issues no pulse, keeps the position,
    the direction line and the calibration flag, and leaves the gate
    clear. *)
Theorem jog_inert_while_gate_closed
    (sensor : nat -> level) (fuel : nat) (commands : list Command) :
  forall s,
  manualControlActive s = false ->
  Forall (fun c => opens_gate_or_moves c = false) commands ->
  exists s',
    run sensor fuel commands s = Some s'
    /\ pulses s' = pulses s
    /\ currentPosition s' = currentPosition s
    /\ DIR_out s' = DIR_out s
    /\ isCalibrated s' = isCalibrated s
    /\ manualControlActive s' = false.
Proof.
  induction commands as [|c cs IH]; intros s Hgate Hall; cbn [run].
  - exists s. repeat split. exact Hgate.
  - inversion Hall as [|c' cs' Hc Hcs]; subst.
    assert (Hstep : exists s1,
              loop sensor fuel c s = Some s1
              /\ pulses s1 = pulses s
              /\ currentPosition s1 = currentPosition s
              /\ DIR_out s1 = DIR_out s
              /\ isCalibrated s1 = isCalibrated s
              /\ manualControlActive s1 = false).
    { destruct c; try discriminate Hc; cbn [loop]; rewrite ?Hgate;
        eexists; (split; [reflexivity|]); repeat split; exact Hgate. }
    destruct Hstep as (s1 & -> & Hp & Hpos & Hdir & Hcal & Hg1).
    destruct (IH s1 Hg1 Hcs) as (s' & Hrun & Hp' & Hpos' & Hdir' & Hcal' & Hg').
    exists s'. rewrite Hrun. repeat split; congruence.
Qed.

Lemma jog_inert_while_gate_closed_witness :
  let s := set_isCalibrated true (set_currentPosition 0.000508 boot) in
  manualControlActive s = false
  /\ exists s',
       run never_contact 0 [MANUAL_CW; MANUAL_CCW; MANUAL_STOP; MANUAL_CW] s
         = Some s'
       /\ pulses s' = pulses s.
Proof.
  cbv zeta. split; [reflexivity|].
  destruct (jog_inert_while_gate_closed never_contact 0
              [MANUAL_CW; MANUAL_CCW; MANUAL_STOP; MANUAL_CW]
              (set_isCalibrated true (set_currentPosition 0.000508 boot)))
    as (s' & Hrun & Hp & _).
  - reflexivity.
  - repeat constructor.
  - exists s'. split; [exact Hrun | exact Hp].
Defined.

(** X14. A target move asked from the position the target snaps to plans
    zero steps: it issues no pulse and keeps the position, yet still
    drives the direction line LOW, enables the driver and writes its four
    lines, ending with STATUS:TARGET_COMPLETE. *)
Theorem target_at_snapped_position_is_idle
    (sensor : nat -> level) (s : State) (mm : Q) :
  isCalibrated s = true ->
  currentPosition s == snappedTarget_of mm ->
  let s' := moveToTarget sensor mm s in
  stepsToMove_of mm (currentPosition s) = 0%Z
  /\ pulses s' = pulses s
  /\ currentPosition s' = currentPosition s
  /\ DIR_out s' = LOW
  /\ ENA_out s' = LOW
  /\ serial s'
     = serial s ++ "Moving to target distance: " ++ printFloat mm 6 ++ CRLF
         ++ "Steps to move: 0" ++ CRLF
         ++ "POSITION:" ++ printFloat (currentPosition s) 6 ++ CRLF
         ++ "STATUS:TARGET_COMPLETE" ++ CRLF.
Proof.
  intros Hcal Hat s'.
  assert (Hd : stepsToMove_of mm (currentPosition s) = 0%Z).
  { unfold stepsToMove_of.
    assert (Hy : (snappedTarget_of mm - currentPosition s) / MM_PER_PULSE
                 == 0).
    { rewrite Hat, per_pulse_div. ring. }
    apply round_unique; rewrite Hy; change (inject_Z 0) with 0; lra. }
  split; [exact Hd|].
  pose proof (moveToTarget_eq sensor mm s Hcal) as Hrun. cbv zeta in Hrun.
  fold s' in Hrun. rewrite Hd in Hrun. cbn [abs Z.gtb Z.compare Z.opp
    Z.to_nat move_loop] in Hrun.
  rewrite Hrun. unfold move_prepare. rewrite Hd.
  cbn [Z.gtb Z.compare].
  unfold print_position, Serial_println_float, Serial_println_long,
    Serial_println, Serial_print, then_, delay.
  rewrite digitalWrite_ENA_PIN.
  cbn [serial set_serial set_ENA_out set_DIR_out currentPosition pulses
    DIR_out ENA_out].
  repeat split. now rewrite !append_assoc.
Qed.

Lemma target_at_snapped_position_is_idle_witness :
  let s := set_isCalibrated true (set_currentPosition 0.000508 boot) in
  isCalibrated s = true
  /\ currentPosition s == snappedTarget_of 0.00051
  /\ pulses (moveToTarget always_low 0.00051 s) = pulses s.
Proof.
  cbv zeta. split; [reflexivity|]. split; [vm_compute; reflexivity|].
  destruct (target_at_snapped_position_is_idle always_low
              (set_isCalibrated true (set_currentPosition 0.000508 boot))
              0.00051) as (_ & Hp & _).
  - reflexivity.
  - vm_compute. reflexivity.
  - exact Hp.
Defined.

(** X15. Two globals are dead: no command ever assigns [forceRest] or
    [lastPositionUpdate], so both hold their initial values after any
    sequence of commands; the handler that would set [forceRest] is never
    attached. *)
Theorem unused_globals_never_change
    (sensor : nat -> level) (fuel : nat) (commands : list Command) :
  forall s s',
  run sensor fuel commands s = Some s' ->
  forceRest s' = forceRest s
  /\ lastPositionUpdate s' = lastPositionUpdate s.
Proof.
  induction commands as [|c cs IH]; intros s s'; cbn [run].
  - intros Hrun. injection Hrun as <-. split; reflexivity.
  - destruct (loop sensor fuel c s) as [s1|] eqn:Hloop; [|discriminate].
    intros Hrun. destruct (IH s1 s' Hrun) as [Hf Hl].
    destruct (loop_globals sensor fuel c s s1 Hloop) as (Hu & _).
    unfold unused_globals in Hu. injection Hu as Hf1 Hl1.
    split; congruence.
Qed.

Lemma unused_globals_never_change_witness :
  exists s',
    run (contact_from 3) 3
      [CALIBRATE; TARGET 0.000508; MANUAL_READY; MANUAL_CCW; REST] boot
      = Some s'
    /\ forceRest s' = false
    /\ lastPositionUpdate s' = 0%Z.
Proof.
  eexists. split; [vm_compute; reflexivity|].
  eapply (unused_globals_never_change (contact_from 3) 3
            [CALIBRATE; TARGET 0.000508; MANUAL_READY; MANUAL_CCW; REST]
            boot).
  vm_compute. reflexivity.
Defined.

(** X16. The driver enable line after each routine: a target move on a
    calibrated axis leaves the driver enabled ([ENA_PIN] LOW) when it
    returns, completed or cut short, while a calibration that returns and
    REST leave it disabled ([ENA_PIN] HIGH). *)
Theorem driver_enable_after_routines
    (sensor : nat -> level) (s : State) (mm : Q) :
  isCalibrated s = true ->
  ENA_out (moveToTarget sensor mm s) = LOW
  /\ ENA_out (stopMotor sensor (moveToTarget sensor mm s)) = HIGH
  /\ (forall fuel s', runCalibration sensor fuel s = Some s' ->
        ENA_out s' = HIGH).
Proof.
  intros Hcal. split; [|split].
  - rewrite moveToTarget_eq by exact Hcal.
    set (d := stepsToMove_of mm (currentPosition s)).
    destruct (move_loop_frame sensor (Z.to_nat (abs d)) d (currentPosition s)
                0%Z (move_prepare sensor mm s)) as (_ & Hena & _).
    destruct (move_finish_fields
                (move_loop sensor (Z.to_nat (abs d)) 0%Z d
                   (currentPosition s) (move_prepare sensor mm s)))
      as (_ & _ & _ & -> & _).
    rewrite Hena. reflexivity.
  - reflexivity.
  - intros fuel s' Hrun.
    apply (runCalibration_globals sensor fuel s s' Hrun).
Qed.

Lemma driver_enable_after_routines_witness :
  let s := set_isCalibrated true (set_currentPosition 0 boot) in
  isCalibrated s = true
  /\ ENA_out (moveToTarget never_contact 0.000508 s) = LOW.
Proof.
  cbv zeta. split; [reflexivity|].
  apply (driver_enable_after_routines never_contact
           (set_isCalibrated true (set_currentPosition 0 boot)) 0.000508).
  reflexivity.
Defined.
